(** * globaltax: the numeric core of [streamlit_app.py]

    A shallow embedding of the three pure functions of the application,
    [global_tax_calculator], [create_tax_function] and
    [calculate_personal_outcome], together with the few NumPy array
    primitives they call ([linspace], [insert], [diff], [sum], [interp]),
    and of the script that chains them and builds the charted columns.

    Numbers.  Python's [float] (and [int], which Python promotes to [float]
    as soon as the two meet) is modelled by the real numbers [R]: every
    statement below is a statement of exact real arithmetic and says
    nothing about IEEE-754 rounding.  The one place where Python arithmetic
    is partial, a division by zero raising [ZeroDivisionError], is modelled
    by [option]. *)

From Stdlib Require Import Reals Lra Lia List Sorted.
Import ListNotations.

Open Scope R_scope.

(* [steps = 10000] is written as a plain [nat] literal. *)
Set Warnings "-abstract-large-number".

(** ** Python helpers *)

(** [a / b] on Python floats: raises [ZeroDivisionError] when [b] is zero. *)
Definition py_div (a b : R) : option R :=
  if Req_dec_T b 0 then None else Some (a / b).

(** [x <- m ;; k]: the rest of the function runs only if [m] did not raise. *)
Definition bind {A B : Type} (m : option A) (k : A -> option B) : option B :=
  match m with
  | Some a => k a
  | None => None
  end.

Notation "x <- m ;; k" := (bind m (fun x => k))
  (at level 61, m at next level, right associativity).

(** Python's builtin [min(a, b)]: [b] when [b < a], otherwise [a]. *)
Definition py_min (a b : R) : R := if Rlt_dec b a then b else a.

(** Python's builtin [max(a, b)]: [b] when [b > a], otherwise [a]. *)
Definition py_max (a b : R) : R := if Rlt_dec a b then b else a.

(** [sum(...)] of a list of floats. *)
Definition py_sum (l : list R) : R := fold_left Rplus l 0.

(** [zip(xs, ys)] followed by an elementwise product, as in
    [w*m for w,m in zip(weights, scaled_multipliers)] and in NumPy's
    [a * b] on arrays of equal length. *)
Definition zip_mul (xs ys : list R) : list R :=
  map (fun p => fst p * snd p) (combine xs ys).

(** ** Global tax calculator *)

Definition population : R := 8.23e9.
Definition world_gdp : R := 97.8e12.

Definition share_90_99 : R := 0.314.
Definition share_99_999 : R := 0.118.
Definition share_top001 : R := 0.086.
Definition top10_share : R := share_90_99 + share_99_999 + share_top001.

Definition base_multipliers : list R := [0.35; 1.5; 2.7].

Definition scaled_multipliers (progression_strength : R) : list R :=
  map (fun m => 1 + (m - 1) * progression_strength / 3) base_multipliers.

Definition weights : list R := [share_90_99; share_99_999; share_top001].

(** The dictionary stored under ['bracket_rates']. *)
Record BracketRates : Type := mkBracketRates {
  rate_90_99 : R;      (* '90-99%' *)
  rate_99_999 : R;     (* '99-99.9%' *)
  rate_top001 : R      (* '99.9-100%' *)
}.

(** The dictionary returned by [global_tax_calculator]. *)
Record SolverResult : Type := mkSolverResult {
  ubi_yearly : R;
  total_needed : R;
  required_share_gdp : R;
  avg_required_on_top10 : R;
  bracket_rates : BracketRates;
  cap_tax_revenue : R;
  cap_monthly : option R
}.

(** Step 4 of the calculator: the revenue of the hard cap. *)
Definition cap_revenue (basic_income : R) (income_cap_factor : option R) : R :=
  match income_cap_factor with
  | Some f =>
      let cap_yearly := basic_income * f * 12 in
      let avg_top001_income := world_gdp * share_top001 / (population * 0.001) in
      if Rlt_dec cap_yearly avg_top001_income then
        let excess_per_person := avg_top001_income - cap_yearly in
        excess_per_person * (population * 0.001)
      else 0
  | None => 0
  end.

(** [basic_income * income_cap_factor if income_cap_factor else None]:
    a factor of zero is falsy. *)
Definition cap_monthly_of (basic_income : R) (income_cap_factor : option R)
  : option R :=
  match income_cap_factor with
  | Some f => if Req_dec_T f 0 then None else Some (basic_income * f)
  | None => None
  end.

Definition global_tax_calculator
    (basic_income overhead : R) (income_cap_factor : option R)
    (progression_strength : R) : option SolverResult :=
  (* Step 1: UBI cost *)
  let ubi_yearly := basic_income * 12 * population in
  let total_needed := ubi_yearly * (1 + overhead) in
  (* Step 2: required share of GDP from the top 10% *)
  required_share_gdp <- py_div total_needed world_gdp ;;
  avg_required_on_top10 <- py_div required_share_gdp top10_share ;;
  (* Step 3: bracket scaling *)
  let scaled := scaled_multipliers progression_strength in
  weighted_avg <- py_div (py_sum (zip_mul weights scaled)) top10_share ;;
  scale_factor <- py_div avg_required_on_top10 weighted_avg ;;
  let rates := map (fun m => m * scale_factor) scaled in
  Some {| ubi_yearly := ubi_yearly;
          total_needed := total_needed;
          required_share_gdp := required_share_gdp;
          avg_required_on_top10 := avg_required_on_top10;
          bracket_rates :=
            {| rate_90_99 := nth 0 rates 0;
               rate_99_999 := nth 1 rates 0;
               rate_top001 := nth 2 rates 0 |};
          cap_tax_revenue := cap_revenue basic_income income_cap_factor;
          cap_monthly := cap_monthly_of basic_income income_cap_factor |}.

(** ** NumPy primitives used by the curve and the integrator

    NumPy is an external library; the definitions below follow its
    documented behaviour on one-dimensional arrays of floats, read over
    [R]. *)

(** [np.maximum(a, c)], elementwise against a scalar. *)
Definition np_maximum (a : list R) (c : R) : list R := map (fun x => Rmax x c) a.

(** [np.log], elementwise natural logarithm. *)
Definition np_log (a : list R) : list R := map ln a.

(** One segment of the piecewise-linear interpolant through
    [(x0, y0)] and [(x1, y1)]: [slope * (x - x0) + y0]. *)
Definition segment (x0 x1 y0 y1 x : R) : R :=
  (y1 - y0) / (x1 - x0) * (x - x0) + y0.

(** The search of [np.interp] once [x] is known to lie at or after the first
    sample point: the segment [xp[j] <= x < xp[j+1]] is used, and the last
    sample value when [x] is at the last sample point. *)
Fixpoint interp_from (x : R) (xp fp : list R) : R :=
  match xp, fp with
  | x0 :: xp', y0 :: fp' =>
      match xp', fp' with
      | x1 :: _, y1 :: _ =>
          if Rlt_dec x x1 then segment x0 x1 y0 y1 x
          else interp_from x xp' fp'
      | _, _ => y0
      end
  | _, _ => 0
  end.

(** [np.interp(x, xp, fp)] at a scalar [x], with the default [left] and
    [right]: [fp[0]] before the first sample point, [fp[-1]] after the
    last. *)
Definition np_interp (x : R) (xp fp : list R) : R :=
  if Rlt_dec (last xp 0) x then last fp 0
  else if Rlt_dec x (hd 0 xp) then hd 0 fp
  else interp_from x xp fp.

(** [np.linspace(start, stop, num)]: [num] samples [start + i * step] with
    [step = (stop - start) / (num - 1)], the last one set to [stop]. *)
Definition np_linspace (start stop : R) (num : nat) : list R :=
  match num with
  | O => []
  | S O => [start]
  | S div =>
      let step := (stop - start) / INR div in
      map (fun i => INR i * step + start) (seq 0 div) ++ [stop]
  end.

(** [np.insert(arr, idx, v)]. *)
Definition np_insert (arr : list R) (idx : nat) (v : R) : list R :=
  firstn idx arr ++ v :: skipn idx arr.

(** [np.diff(arr)]: [arr[i+1] - arr[i]]. *)
Fixpoint np_diff (arr : list R) : list R :=
  match arr with
  | x :: tl =>
      match tl with
      | y :: _ => (y - x) :: np_diff tl
      | [] => []
      end
  | [] => []
  end.

(** [np.sum(arr)]. *)
Definition np_sum (arr : list R) : R := fold_left Rplus arr 0.

(** ** Tax function with smooth progression and hard cap *)

(** Anchor points (annual incomes). *)
Definition x_points : list R := [0; 15000; 55000; 200000].

Definition y_points (bracket_rates : BracketRates) : list R :=
  [0; rate_90_99 bracket_rates; rate_99_999 bracket_rates;
   rate_top001 bracket_rates].

(** [cap_yearly], defined exactly when [income_cap_factor is not None]. *)
Definition cap_yearly_of (basic_income : R) (income_cap_factor : option R)
  : option R :=
  match income_cap_factor with
  | Some f => Some (basic_income * f * 12)
  | None => None
  end.

(** The log-interpolation branch of [tax_curve]. *)
Definition log_interpolation (bracket_rates : BracketRates) (annual_income : R)
  : R :=
  let log_x := np_log (np_maximum x_points 1) in
  let log_income := ln (py_max annual_income 1) in
  np_interp log_income log_x (y_points bracket_rates).

(** [create_tax_function] returns the closure [tax_curve]. *)
Definition create_tax_function (bracket_rates : BracketRates)
    (basic_income : R) (income_cap_factor : option R) : R -> R :=
  fun annual_income =>
    match cap_yearly_of basic_income income_cap_factor with
    | Some cap_yearly =>
        if Rle_dec cap_yearly annual_income then 1
        else log_interpolation bracket_rates annual_income
    | None => log_interpolation bracket_rates annual_income
    end.

(** ** Personal income calculation *)

(** The dictionary returned by [calculate_personal_outcome]. *)
Record PersonalOutcome : Type := mkPersonalOutcome {
  tax_rate : R;
  tax_amount : R;
  after_tax_income_monthly : R;
  diff_eur : R;
  diff_pct : R
}.

Definition steps : nat := 10000.

(** [taxable_income]: the income up to the cap. *)
Definition taxable_income_of (yearly_income basic_income : R)
    (income_cap_factor : option R) : R :=
  match cap_yearly_of basic_income income_cap_factor with
  | Some cap_yearly => py_min yearly_income cap_yearly
  | None => yearly_income
  end.

(** The fine-grained integration: the value of [tax_amount] before the cap
    is applied. *)
Definition fine_grained_integration (tax_curve : R -> R) (taxable_income : R)
  : R :=
  let increments := np_linspace 0 taxable_income steps in
  let marginal_rates := map tax_curve increments in
  let step_sizes := np_diff (np_insert increments 0 0) in
  np_sum (zip_mul step_sizes marginal_rates).

(** [yearly_income - cap_yearly] when the income is above the cap. *)
Definition cap_surcharge (yearly_income basic_income : R)
    (income_cap_factor : option R) : R :=
  match cap_yearly_of basic_income income_cap_factor with
  | Some cap_yearly =>
      if Rlt_dec cap_yearly yearly_income then yearly_income - cap_yearly
      else 0
  | None => 0
  end.

Definition calculate_personal_outcome (monthly_income basic_income : R)
    (tax_curve : R -> R) (income_cap_factor : option R) : PersonalOutcome :=
  let yearly_income := monthly_income * 12 in
  let taxable_income :=
    taxable_income_of yearly_income basic_income income_cap_factor in
  let tax_amount := fine_grained_integration tax_curve taxable_income in
  (* apply 100% above cap *)
  let tax_amount :=
    tax_amount + cap_surcharge yearly_income basic_income income_cap_factor in
  let after_tax_income := yearly_income - tax_amount + basic_income * 12 in
  (* enforce hard cap on final income *)
  let after_tax_income :=
    match cap_yearly_of basic_income income_cap_factor with
    | Some cap_yearly => py_min after_tax_income (cap_yearly + basic_income * 12)
    | None => after_tax_income
    end in
  {| tax_rate :=
       if Rlt_dec 0 yearly_income then tax_amount / yearly_income * 100 else 0;
     tax_amount := tax_amount / 12;
     after_tax_income_monthly := after_tax_income / 12;
     diff_eur := (after_tax_income - yearly_income) / 12;
     diff_pct :=
       if Rlt_dec 0 yearly_income
       then (after_tax_income - yearly_income) / yearly_income * 100 else 0 |}.

(** ** The application script

    The module-level code that follows the three functions, without its
    widgets and its formatting: the slider values are the arguments. *)

(** [result = global_tax_calculator(...)],
    [tax_curve = create_tax_function(result['bracket_rates'], ...)] and
    [personal = calculate_personal_outcome(monthly_income, ...)]. *)
Definition personal (basic_income overhead : R) (income_cap_factor : option R)
    (progression_strength monthly_income : R) : option PersonalOutcome :=
  result <- global_tax_calculator basic_income overhead income_cap_factor
              progression_strength ;;
  let tax_curve :=
    create_tax_function (bracket_rates result) basic_income income_cap_factor in
  Some (calculate_personal_outcome monthly_income basic_income tax_curve
          income_cap_factor).

(** Population distribution: (percentile, annual income) anchors. *)
Definition anchors : list (R * R) :=
  [(0, 0); (50, 3000); (90, 15000); (99, 55000); (99.9, 200000);
   (100, 1000000)].

Definition percentiles : list R := np_linspace 0 100 500.

(** [np.interp(percentiles, [a[0] for a in anchors], [a[1] for a in anchors])]:
    [np.interp] at every element of the array. *)
Definition incomes_annual : list R :=
  map (fun p => np_interp p (map fst anchors) (map snd anchors)) percentiles.

(** The charted column ['After tax + BI']. *)
Definition after_tax (basic_income : R) (tax_curve : R -> R)
    (income_cap_factor : option R) : list R :=
  map (fun x =>
         after_tax_income_monthly
           (calculate_personal_outcome (x / 12) basic_income tax_curve
              income_cap_factor))
      incomes_annual.

(** ** Specification-side notions

    The definitions of this section are written from the prose of the
    specification, to be compared with what the code above computes. *)

(** The population-share-weighted average of the three bracket rates: each
    segment's share of the top decile times its rate. *)
Definition weighted_rate_average (rates : BracketRates) : R :=
  share_90_99 / top10_share * rate_90_99 rates
  + share_99_999 / top10_share * rate_99_999 rates
  + share_top001 / top10_share * rate_top001 rates.

(** The right-endpoint Riemann sum of [f] over [[a, b]] cut into [n] equal
    subintervals: each subinterval contributes its width times the value of
    [f] at its right endpoint. *)
Definition right_riemann_sum (f : R -> R) (a b : R) (n : nat) : R :=
  let width := (b - a) / INR n in
  fold_right Rplus 0
    (map (fun k => width * f (a + INR (S k) * width)) (seq 0 n)).

(** [x] agrees with the printed figure [v] up to the relative error [rel]. *)
Definition approx (rel x v : R) : Prop := Rabs (x - v) <= rel * Rabs v.

(** The default scenario of the specification: basic income 30, overhead
    0.10, no cap, progression strength 3.0.  The call returns, and its four
    macro figures agree with the printed ones [u], [t], [s] and [a] up to
    [rel]. *)
Definition default_scenario (rel u t s a : R) : Prop :=
  exists r,
    global_tax_calculator 30 0.10 None 3.0 = Some r /\
    approx rel (ubi_yearly r) u /\
    approx rel (total_needed r) t /\
    approx rel (required_share_gdp r) s /\
    approx rel (avg_required_on_top10 r) a.

(** ** The array primitives on small inputs *)

Example np_linspace_four : np_linspace 0 3 4 = [0; 1; 2; 3].
Proof. unfold np_linspace. cbn [seq map app INR]. repeat (f_equal; try lra). Qed.

Example np_diff_three : np_diff [1; 3; 6] = [2; 3].
Proof. cbn [np_diff]. repeat (f_equal; try lra). Qed.

Example np_insert_front_two : np_insert [1; 2] 0 0 = [0; 1; 2].
Proof. reflexivity. Qed.

Example np_interp_inside : np_interp 2.5 [1; 2; 3] [10; 20; 40] = 30.
Proof.
  unfold np_interp. cbn [last hd interp_from].
  repeat match goal with
         | |- context [Rlt_dec ?a ?b] => destruct (Rlt_dec a b); try lra
         end.
  unfold segment. lra.
Qed.

Example np_interp_left : np_interp 0 [1; 2; 3] [10; 20; 40] = 10.
Proof.
  unfold np_interp. cbn [last hd].
  repeat match goal with
         | |- context [Rlt_dec ?a ?b] => destruct (Rlt_dec a b); try lra
         end.
Qed.

Example np_interp_right : np_interp 7 [1; 2; 3] [10; 20; 40] = 40.
Proof.
  unfold np_interp. cbn [last hd].
  repeat match goal with
         | |- context [Rlt_dec ?a ?b] => destruct (Rlt_dec a b); try lra
         end.
Qed.

Example np_interp_at_last : np_interp 3 [1; 2; 3] [10; 20; 40] = 40.
Proof.
  unfold np_interp. cbn [last hd interp_from].
  repeat match goal with
         | |- context [Rlt_dec ?a ?b] => destruct (Rlt_dec a b); try lra
         end.
Qed.

(** ** Facts about the constants *)

Lemma population_pos : 0 < population.
Proof. unfold population. lra. Qed.

Lemma world_gdp_pos : 0 < world_gdp.
Proof. unfold world_gdp. lra. Qed.

Lemma top10_share_val : top10_share = 0.518.
Proof. unfold top10_share, share_90_99, share_99_999, share_top001. lra. Qed.

Lemma py_div_Some (a b : R) : b <> 0 -> py_div a b = Some (a / b).
Proof. intros Hb. unfold py_div. destruct (Req_dec_T b 0); [contradiction | reflexivity]. Qed.

Lemma py_div_None (a : R) : py_div a 0 = None.
Proof. unfold py_div. destruct (Req_dec_T 0 0); [reflexivity | contradiction]. Qed.

Lemma py_div_inv (a b q : R) : py_div a b = Some q -> b <> 0 /\ q = a / b.
Proof.
  unfold py_div. destruct (Req_dec_T b 0); [discriminate |].
  intros [= <-]. split; [assumption | reflexivity].
Qed.

Lemma div_mul_cancel (a d : R) : d <> 0 -> a / d * d = a.
Proof.
  intros Hd. unfold Rdiv. rewrite Rmult_assoc, Rinv_l by assumption.
  apply Rmult_1_r.
Qed.

(** The weighted sum of the scaled multipliers, in closed form. *)
Lemma weighted_sum_val (ps : R) :
  py_sum (zip_mul weights (scaled_multipliers ps)) = 0.518 + 0.0011 * ps / 3.
Proof.
  unfold py_sum, zip_mul, weights, scaled_multipliers, base_multipliers,
    share_90_99, share_99_999, share_top001.
  simpl. lra.
Qed.

(** ** The calculator, step by step *)

(** The divisions by [world_gdp] and by [top10_share] never raise. *)
Ltac run_constant_divisions :=
  rewrite (py_div_Some _ world_gdp) by (pose proof world_gdp_pos; lra);
  cbn [bind];
  repeat (rewrite (py_div_Some _ top10_share) by (rewrite top10_share_val; lra);
          cbn [bind]).

(** The calculator raises exactly when the weighted average of the scaled
    multipliers is zero; otherwise every field of its result has the closed
    form read off the source. *)
Lemma global_tax_calculator_inv (bi oh : R) (cap : option R) (ps : R)
    (r : SolverResult) :
  global_tax_calculator bi oh cap ps = Some r ->
  let avg := bi * 12 * population * (1 + oh) / world_gdp / top10_share in
  let wavg := (0.518 + 0.0011 * ps / 3) / top10_share in
  wavg <> 0 /\
  ubi_yearly r = bi * 12 * population /\
  total_needed r = bi * 12 * population * (1 + oh) /\
  required_share_gdp r = bi * 12 * population * (1 + oh) / world_gdp /\
  avg_required_on_top10 r = avg /\
  rate_90_99 (bracket_rates r) = (1 + (0.35 - 1) * ps / 3) * (avg / wavg) /\
  rate_99_999 (bracket_rates r) = (1 + (1.5 - 1) * ps / 3) * (avg / wavg) /\
  rate_top001 (bracket_rates r) = (1 + (2.7 - 1) * ps / 3) * (avg / wavg) /\
  cap_tax_revenue r = cap_revenue bi cap /\
  cap_monthly r = cap_monthly_of bi cap.
Proof.
  unfold global_tax_calculator. rewrite weighted_sum_val.
  run_constant_divisions.
  destruct (py_div _ ((0.518 + 0.0011 * ps / 3) / top10_share)) as [sf|] eqn:Hsf;
    cbn [bind]; [| discriminate].
  apply py_div_inv in Hsf. destruct Hsf as [Hw ->].
  intros [= <-]. cbn. repeat split; try reflexivity. exact Hw.
Qed.

Lemma global_tax_calculator_returns (bi oh : R) (cap : option R) (ps : R) :
  ps <> - (15540 / 11) ->
  exists r, global_tax_calculator bi oh cap ps = Some r.
Proof.
  intros Hps. unfold global_tax_calculator. rewrite weighted_sum_val.
  run_constant_divisions. rewrite py_div_Some.
  - cbn [bind]. eexists. reflexivity.
  - rewrite top10_share_val. intros H. apply Hps.
    assert (H1 : 0.518 + 0.0011 * ps / 3 = 0).
    { apply (Rmult_eq_reg_r (/ 0.518)); [| apply Rinv_neq_0_compat; lra].
      unfold Rdiv in H. lra. }
    lra.
Qed.

Lemma global_tax_calculator_raises (bi oh : R) (cap : option R) :
  global_tax_calculator bi oh cap (- (15540 / 11)) = None.
Proof.
  unfold global_tax_calculator. rewrite weighted_sum_val.
  run_constant_divisions.
  replace ((0.518 + 0.0011 * - (15540 / 11) / 3) / top10_share) with 0
    by (rewrite top10_share_val; lra).
  rewrite py_div_None. reflexivity.
Qed.

(** ** Properties of the calculator *)

(** C1.  The calculator either returns a result whose bracket rates have a
    population-share-weighted average (each segment's share of the top
    decile times its rate, summed) exactly equal to the returned
    [avg_required_on_top10], or it raises; and it raises for one value of
    [progression_strength] only, a negative one, so never on an input with
    a positive progression strength. *)
Theorem weighted_average_of_rates_is_target (bi oh : R) (cap : option R) (ps : R) :
  match global_tax_calculator bi oh cap ps with
  | Some r => weighted_rate_average (bracket_rates r) = avg_required_on_top10 r
  | None => ps = - (15540 / 11)
  end.
Proof.
  destruct (global_tax_calculator bi oh cap ps) as [r|] eqn:Hr.
  - apply global_tax_calculator_inv in Hr. cbv zeta in Hr.
    destruct Hr as (Hw & _ & _ & _ & Ha & H1 & H2 & H3 & _).
    unfold weighted_rate_average. rewrite H1, H2, H3, Ha.
    rewrite top10_share_val in *.
    unfold share_90_99, share_99_999, share_top001.
    pose proof (div_mul_cancel
                  (bi * 12 * population * (1 + oh) / world_gdp / 0.518) _ Hw) as E.
    set (k := _ / ((0.518 + 0.0011 * ps / 3) / 0.518)) in *. clearbody k.
    rewrite <- E. lra.
  - destruct (Req_dec ps (- (15540 / 11))) as [E|N]; [exact E |].
    destruct (global_tax_calculator_returns bi oh cap ps N) as [r' Hr'].
    congruence.
Qed.

(** The macro figures of the default scenario, as exact fractions. *)
Lemma default_scenario_values (r : SolverResult) :
  global_tax_calculator 30 0.10 None 3.0 = Some r ->
  ubi_yearly r = 2.9628e12 /\
  total_needed r = 3.25908e12 /\
  required_share_gdp r = 325908 / 9780000 /\
  avg_required_on_top10 r = 325908 / 5066040.
Proof.
  intros Hr. apply global_tax_calculator_inv in Hr. cbv zeta in Hr.
  destruct Hr as (_ & Hu & Ht & Hs & Ha & _).
  rewrite Hu, Ht, Hs, Ha, top10_share_val. unfold population, world_gdp.
  repeat split; lra.
Qed.

Ltac split_abs :=
  unfold approx, Rabs in *;
  repeat match goal with
         | |- context [Rcase_abs ?x] => destruct (Rcase_abs x)
         | H : context [Rcase_abs ?x] |- _ => destruct (Rcase_abs x)
         end.

(** C3, as stated: the printed [avg_required_on_top10] of about
    0.0633 is off.
    The code returns 0.06433..., which is not within one per cent of
    0.0633, let alone within the precision of the printed figure. *)
Lemma default_scenario_as_printed_fails :
  ~ default_scenario 0.01 2.9628e12 3.2591e12 0.0333 0.0633.
Proof.
  intros (r & Hr & _ & _ & _ & Ha).
  destruct (default_scenario_values r Hr) as (_ & _ & _ & Hv).
  rewrite Hv in Ha. split_abs; lra.
Qed.

(** C3, amended.  With basic income 30, overhead 0.10, no cap and
    progression strength 3.0 the calculator returns
    [ubi_yearly] about 2.9628e12, [total_needed] about 3.2591e12,
    [required_share_gdp] about 0.0333 and [avg_required_on_top10] about
    0.0643,
    each within one part in a thousand of the printed figure. *)
Theorem default_scenario_figures :
  default_scenario 0.001 2.9628e12 3.2591e12 0.0333 0.0643.
Proof.
  destruct (global_tax_calculator_returns 30 0.10 None 3.0) as [r Hr]; [lra |].
  exists r. split; [exact Hr |].
  destruct (default_scenario_values r Hr) as (Hu & Ht & Hs & Ha).
  rewrite Hu, Ht, Hs, Ha. repeat split; split_abs; lra.
Qed.

(** C10.  Without a cap, and with overhead and progression strength held
    fixed, the calculator is homogeneous of degree one in the basic income:
    if it returns [r] at basic income [b], then at basic income [lam * b] it
    returns a result whose three bracket rates, [ubi_yearly],
    [total_needed], [required_share_gdp] and [avg_required_on_top10] are
    [lam] times those of [r]. *)
Theorem calculator_homogeneous_in_basic_income
    (lam b oh ps : R) (r : SolverResult) :
  global_tax_calculator b oh None ps = Some r ->
  exists r',
    global_tax_calculator (lam * b) oh None ps = Some r' /\
    rate_90_99 (bracket_rates r') = lam * rate_90_99 (bracket_rates r) /\
    rate_99_999 (bracket_rates r') = lam * rate_99_999 (bracket_rates r) /\
    rate_top001 (bracket_rates r') = lam * rate_top001 (bracket_rates r) /\
    ubi_yearly r' = lam * ubi_yearly r /\
    total_needed r' = lam * total_needed r /\
    required_share_gdp r' = lam * required_share_gdp r /\
    avg_required_on_top10 r' = lam * avg_required_on_top10 r.
Proof.
  intros Hr.
  assert (Hps : ps <> - (15540 / 11)).
  { intros ->. rewrite global_tax_calculator_raises in Hr. discriminate. }
  destruct (global_tax_calculator_returns (lam * b) oh None ps Hps) as [r' Hr'].
  exists r'. split; [exact Hr' |].
  apply global_tax_calculator_inv in Hr, Hr'. cbv zeta in Hr, Hr'.
  destruct Hr as (_ & Hu & Ht & Hs & Ha & H1 & H2 & H3 & _).
  destruct Hr' as (_ & Hu' & Ht' & Hs' & Ha' & H1' & H2' & H3' & _).
  rewrite Hu, Ht, Hs, Ha, H1, H2, H3, Hu', Ht', Hs', Ha', H1', H2', H3'.
  unfold Rdiv. repeat split; ring.
Qed.

Lemma calculator_homogeneous_in_basic_income_witness :
  exists r,
    global_tax_calculator 30 0.10 None 3.0 = Some r /\
    exists r',
      global_tax_calculator (2 * 30) 0.10 None 3.0 = Some r' /\
      rate_90_99 (bracket_rates r') = 2 * rate_90_99 (bracket_rates r) /\
      rate_99_999 (bracket_rates r') = 2 * rate_99_999 (bracket_rates r) /\
      rate_top001 (bracket_rates r') = 2 * rate_top001 (bracket_rates r) /\
      ubi_yearly r' = 2 * ubi_yearly r /\
      total_needed r' = 2 * total_needed r /\
      required_share_gdp r' = 2 * required_share_gdp r /\
      avg_required_on_top10 r' = 2 * avg_required_on_top10 r.
Proof.
  destruct (global_tax_calculator_returns 30 0.10 None 3.0) as [r Hr]; [lra |].
  exists r. split; [exact Hr |].
  exact (calculator_homogeneous_in_basic_income 2 30 0.10 3.0 r Hr).
Defined.

(** ** The integrator as a Riemann sum *)

Lemma fold_left_Rplus (l : list R) (a : R) :
  fold_left Rplus l a = a + fold_right Rplus 0 l.
Proof.
  revert a. induction l as [|x l IH]; intros a; simpl.
  - ring.
  - rewrite IH. ring.
Qed.

Lemma np_sum_fold_right (l : list R) : np_sum l = fold_right Rplus 0 l.
Proof. unfold np_sum. rewrite fold_left_Rplus. ring. Qed.

Lemma np_insert_front (arr : list R) (v : R) : np_insert arr 0 v = v :: arr.
Proof. reflexivity. Qed.

(** With at least two samples, [linspace] is the uniform grid: overwriting
    the last sample with [stop] changes nothing over the reals. *)
Lemma np_linspace_uniform (start stop : R) (n : nat) :
  (0 < n)%nat ->
  np_linspace start stop (S n) =
  map (fun i => INR i * ((stop - start) / INR n) + start) (seq 0 (S n)).
Proof.
  intros Hn. destruct n as [|n]; [lia |].
  unfold np_linspace. rewrite (seq_S (S n) 0), map_app. f_equal.
  cbn [map Nat.add]. f_equal.
  pose proof (not_0_INR (S n) ltac:(lia)) as Hnz.
  field. exact Hnz.
Qed.

(** [diff] of a sampled function. *)
Lemma np_diff_map_seq (g : nat -> R) (s m : nat) :
  np_diff (map g (seq s (S m))) = map (fun i => g (S i) - g i) (seq s m).
Proof.
  revert s. induction m as [|m IH]; intros s.
  - reflexivity.
  - change (seq s (S (S m))) with (s :: seq (S s) (S m)).
    cbn [map]. change (seq s (S m)) with (s :: seq (S s) m).
    cbn [map]. rewrite <- IH.
    change (seq (S s) (S m)) with (S s :: seq (S (S s)) m).
    reflexivity.
Qed.

Lemma zip_mul_map (a b : nat -> R) (l : list nat) :
  zip_mul (map a l) (map b l) = map (fun i => a i * b i) l.
Proof.
  unfold zip_mul. induction l as [|i l IH]; simpl; [reflexivity |].
  f_equal. exact IH.
Qed.

(** The integration of the source, at any resolution of at least two
    samples, is the right-endpoint Riemann sum over one subinterval less. *)
Lemma integration_is_right_riemann_sum (f : R -> R) (T : R) (n : nat) :
  (0 < n)%nat ->
  let increments := np_linspace 0 T (S n) in
  np_sum (zip_mul (np_diff (np_insert increments 0 0)) (map f increments))
  = right_riemann_sum f 0 T n.
Proof.
  intros Hn increments. subst increments.
  rewrite np_linspace_uniform by exact Hn.
  rewrite np_insert_front, np_sum_fold_right.
  set (h := (T - 0) / INR n).
  set (g := fun i : nat => INR i * h + 0).
  assert (Hd : np_diff (0 :: map g (seq 0 (S n)))
               = (g 0%nat - 0) :: np_diff (map g (seq 0 (S n))))
    by reflexivity.
  rewrite Hd, np_diff_map_seq. clear Hd.
  assert (Hr : map f (map g (seq 0 (S n)))
               = f (g 0%nat) :: map f (map g (seq 1 n)))
    by reflexivity.
  rewrite Hr, <- seq_shift, !map_map. clear Hr.
  unfold zip_mul at 1. cbn [combine map fst snd fold_right].
  fold (zip_mul (map (fun i => g (S i) - g i) (seq 0 n))
                (map (fun i => f (g (S i))) (seq 0 n))).
  rewrite zip_mul_map.
  unfold right_riemann_sum. fold h.
  replace ((g 0%nat - 0) * f (g 0%nat)) with 0
    by (unfold g; cbn [INR]; ring).
  rewrite Rplus_0_l. f_equal. apply map_ext. intros i.
  unfold g. rewrite S_INR. f_equal; [ring | f_equal; ring].
Qed.

Lemma right_riemann_sum_empty_interval (f : R -> R) (a : R) (n : nat) :
  right_riemann_sum f a a n = 0.
Proof.
  unfold right_riemann_sum. cbv zeta.
  replace ((a - a) / INR n) with 0 by (unfold Rdiv; ring).
  induction (seq 0 n) as [|k l IH]; [reflexivity |].
  cbn [map fold_right]. rewrite IH. ring.
Qed.

Lemma steps_val : steps = S 9999.
Proof. reflexivity. Qed.

Lemma fine_grained_integration_riemann (tax_curve : R -> R) (T : R) :
  fine_grained_integration tax_curve T = right_riemann_sum tax_curve 0 T 9999.
Proof.
  unfold fine_grained_integration. rewrite steps_val.
  apply integration_is_right_riemann_sum. apply Nat.lt_0_succ.
Qed.

Lemma fine_grained_integration_zero (tax_curve : R -> R) :
  fine_grained_integration tax_curve 0 = 0.
Proof.
  rewrite fine_grained_integration_riemann.
  apply right_riemann_sum_empty_interval.
Qed.

(** C4.  The liability before the cap surcharge is the right-endpoint
    Riemann sum of the curve over [[0, taxable_income]] with 10,000 evenly
    spaced sample points, that is 9,999 equal subintervals, each
    contributing its width times the curve at its right endpoint; the
    returned monthly [tax_amount] is one twelfth of that sum plus the
    surcharge; and over the empty interval the sum is 0. *)
Theorem tax_amount_is_right_riemann_sum
    (monthly_income basic_income : R) (tax_curve : R -> R)
    (income_cap_factor : option R) :
  let yearly_income := monthly_income * 12 in
  let taxable_income :=
    taxable_income_of yearly_income basic_income income_cap_factor in
  fine_grained_integration tax_curve taxable_income
    = right_riemann_sum tax_curve 0 taxable_income 9999 /\
  12 * tax_amount (calculate_personal_outcome monthly_income basic_income
                     tax_curve income_cap_factor)
    = right_riemann_sum tax_curve 0 taxable_income 9999
      + cap_surcharge yearly_income basic_income income_cap_factor /\
  right_riemann_sum tax_curve 0 0 9999 = 0.
Proof.
  intros yearly_income taxable_income. split; [| split].
  - apply fine_grained_integration_riemann.
  - unfold calculate_personal_outcome. cbn [tax_amount].
    rewrite fine_grained_integration_riemann.
    fold yearly_income. fold taxable_income. lra.
  - apply right_riemann_sum_empty_interval.
Qed.

(** ** The cap *)

(** C5.  With a cap configured, the curve is exactly 1 at and above
    [cap_yearly = basic_income * income_cap_factor * 12]. *)
Theorem tax_curve_is_one_at_and_above_cap
    (bracket_rates : BracketRates) (basic_income income_cap_factor x : R) :
  basic_income * income_cap_factor * 12 <= x ->
  create_tax_function bracket_rates basic_income (Some income_cap_factor) x = 1.
Proof.
  intros Hx. unfold create_tax_function, cap_yearly_of.
  destruct (Rle_dec (basic_income * income_cap_factor * 12) x);
    [reflexivity | contradiction].
Qed.

Lemma tax_curve_is_one_at_and_above_cap_witness :
  30 * 100 * 12 <= 36000 /\
  create_tax_function (mkBracketRates 0.02 0.1 0.17) 30 (Some 100) 36000 = 1.
Proof.
  split; [lra |].
  apply (tax_curve_is_one_at_and_above_cap (mkBracketRates 0.02 0.1 0.17)
           30 100 36000).
  lra.
Defined.

(** C6.  When the yearly income equals [cap_yearly] exactly, the strict
    test [yearly_income > cap_yearly] fails: no surcharge is added and the
    liability is the quadrature result alone (over the whole income, which
    is also the taxable income). *)
Theorem no_surcharge_at_exact_cap
    (monthly_income basic_income income_cap_factor : R) (tax_curve : R -> R) :
  monthly_income * 12 = basic_income * income_cap_factor * 12 ->
  cap_surcharge (monthly_income * 12) basic_income (Some income_cap_factor) = 0 /\
  tax_amount (calculate_personal_outcome monthly_income basic_income tax_curve
                (Some income_cap_factor))
    = fine_grained_integration tax_curve (monthly_income * 12) / 12.
Proof.
  intros Heq.
  assert (Hs : cap_surcharge (monthly_income * 12) basic_income
                 (Some income_cap_factor) = 0).
  { unfold cap_surcharge, cap_yearly_of.
    destruct (Rlt_dec _ _) as [Hlt|_]; [lra | reflexivity]. }
  split; [exact Hs |].
  unfold calculate_personal_outcome. cbn [tax_amount]. rewrite Hs.
  unfold taxable_income_of, cap_yearly_of, py_min.
  destruct (Rlt_dec _ _) as [Hlt|_]; [lra |].
  generalize (fine_grained_integration tax_curve (monthly_income * 12)).
  intros q. lra.
Qed.

Lemma no_surcharge_at_exact_cap_witness :
  let tax_curve := create_tax_function (mkBracketRates 0.02 0.1 0.17) 30 (Some 100) in
  cap_surcharge (3000 * 12) 30 (Some 100) = 0 /\
  tax_amount (calculate_personal_outcome 3000 30 tax_curve (Some 100))
    = fine_grained_integration tax_curve (3000 * 12) / 12.
Proof.
  intros tax_curve.
  apply (no_surcharge_at_exact_cap 3000 30 100 tax_curve). lra.
Defined.

(** Python's [min] is below its second argument. *)
Lemma py_min_le_r (a b : R) : py_min a b <= b.
Proof. unfold py_min. destruct (Rlt_dec b a); lra. Qed.

Lemma py_min_same (a b : R) : a <= b -> py_min a b = a.
Proof. intros H. unfold py_min. destruct (Rlt_dec b a); [lra | reflexivity]. Qed.

(** C7.  With a cap configured, whatever the monthly income and whatever
    the curve, the monthly income after tax is at most
    [cap_yearly / 12 + basic_income]. *)
Theorem after_tax_income_capped
    (monthly_income basic_income income_cap_factor : R) (tax_curve : R -> R) :
  after_tax_income_monthly
    (calculate_personal_outcome monthly_income basic_income tax_curve
       (Some income_cap_factor))
  <= basic_income * income_cap_factor * 12 / 12 + basic_income.
Proof.
  unfold calculate_personal_outcome. cbn [after_tax_income_monthly cap_yearly_of].
  match goal with
  | |- py_min ?a ?b / 12 <= _ => pose proof (py_min_le_r a b) as H
  end.
  lra.
Qed.

(** ** Zero income *)

(** C9.  At a monthly income of zero, with a non-negative basic income and,
    when a cap is configured, a positive cap factor, the outcome has
    [tax_rate = 0] and [diff_pct = 0] (the guard, not a division),
    [tax_amount = 0], and [after_tax_income_monthly] equal to the basic
    income. *)
Theorem zero_income_outcome
    (basic_income : R) (tax_curve : R -> R) (income_cap_factor : option R) :
  0 <= basic_income ->
  (forall f, income_cap_factor = Some f -> 0 < f) ->
  let o := calculate_personal_outcome 0 basic_income tax_curve income_cap_factor in
  tax_rate o = 0 /\ diff_pct o = 0 /\ tax_amount o = 0 /\
  after_tax_income_monthly o = basic_income.
Proof.
  intros Hb Hf o. subst o. unfold calculate_personal_outcome.
  cbn [tax_rate diff_pct tax_amount after_tax_income_monthly].
  replace (0 * 12) with 0 by ring.
  assert (Hcap : forall c, cap_yearly_of basic_income income_cap_factor = Some c
                           -> 0 <= c).
  { intros c Hc. destruct income_cap_factor as [f|]; [| discriminate].
    injection Hc as <-. specialize (Hf f eq_refl).
    apply Rmult_le_pos; [apply Rmult_le_pos |]; lra. }
  assert (HT : taxable_income_of 0 basic_income income_cap_factor = 0).
  { unfold taxable_income_of.
    destruct (cap_yearly_of basic_income income_cap_factor) as [c|];
      [| reflexivity].
    apply py_min_same. apply Hcap. reflexivity. }
  assert (HS : cap_surcharge 0 basic_income income_cap_factor = 0).
  { unfold cap_surcharge.
    destruct (cap_yearly_of basic_income income_cap_factor) as [c|];
      [| reflexivity].
    specialize (Hcap c eq_refl).
    destruct (Rlt_dec c 0); [lra | reflexivity]. }
  rewrite HT, HS, fine_grained_integration_zero.
  destruct (Rlt_dec 0 0) as [Hlt|_]; [lra |].
  repeat split; try reflexivity; try lra.
  destruct (cap_yearly_of basic_income income_cap_factor) as [c|].
  - specialize (Hcap c eq_refl). rewrite py_min_same by lra. lra.
  - lra.
Qed.

Lemma zero_income_outcome_witness :
  let tax_curve := create_tax_function (mkBracketRates 0.02 0.1 0.17) 30 (Some 100) in
  let o := calculate_personal_outcome 0 30 tax_curve (Some 100) in
  tax_rate o = 0 /\ diff_pct o = 0 /\ tax_amount o = 0 /\
  after_tax_income_monthly o = 30.
Proof.
  intros tax_curve.
  apply (zero_income_outcome 30 tax_curve (Some 100)).
  - lra.
  - intros f [= <-]. lra.
Defined.

(** ** Piecewise-linear interpolation is monotone *)

Section Segment.

Variables x0 x1 y0 y1 : R.
Hypothesis Hx : x0 < x1.
Hypothesis Hy : y0 <= y1.

Lemma segment_slope :
  exists s, 0 <= s /\ s * (x1 - x0) = y1 - y0 /\
            forall x, segment x0 x1 y0 y1 x = s * (x - x0) + y0.
Proof.
  exists ((y1 - y0) / (x1 - x0)). split; [| split].
  - apply Rmult_le_pos; [lra |].
    apply Rlt_le, Rinv_0_lt_compat. lra.
  - apply div_mul_cancel. lra.
  - reflexivity.
Qed.

Lemma segment_mono (u v : R) :
  u <= v -> segment x0 x1 y0 y1 u <= segment x0 x1 y0 y1 v.
Proof.
  intros Huv. destruct segment_slope as (s & Hs & _ & E).
  rewrite !E. nra.
Qed.

Lemma segment_lower (x : R) : x0 <= x -> y0 <= segment x0 x1 y0 y1 x.
Proof.
  intros Hx0. destruct segment_slope as (s & Hs & _ & E).
  rewrite E. nra.
Qed.

Lemma segment_upper (x : R) : x <= x1 -> segment x0 x1 y0 y1 x <= y1.
Proof.
  intros Hx1. destruct segment_slope as (s & Hs & Hd & E).
  rewrite E. nra.
Qed.

End Segment.

Lemma sorted_cons2 (rel : R -> R -> Prop) (a b : R) (l : list R) :
  Sorted rel (a :: b :: l) -> rel a b /\ Sorted rel (b :: l).
Proof.
  intros H. apply Sorted_inv in H. destruct H as [Hs Hh].
  apply HdRel_inv in Hh. split; assumption.
Qed.

Lemma sorted_hd_le_last (y0 : R) (fp : list R) :
  Sorted Rle (y0 :: fp) -> y0 <= last (y0 :: fp) 0.
Proof.
  revert y0. induction fp as [|y1 fp IH]; intros y0 Hs.
  - simpl. lra.
  - apply sorted_cons2 in Hs. destruct Hs as [Hle Hs].
    specialize (IH y1 Hs).
    change (last (y0 :: y1 :: fp) 0) with (last (y1 :: fp) 0). lra.
Qed.

Lemma interp_from_cons2 (x x0 x1 : R) (xp : list R) (y0 y1 : R) (fp : list R) :
  interp_from x (x0 :: x1 :: xp) (y0 :: y1 :: fp) =
  if Rlt_dec x x1 then segment x0 x1 y0 y1 x
  else interp_from x (x1 :: xp) (y1 :: fp).
Proof. reflexivity. Qed.

(** Between the first and the last sample point the interpolant stays
    between the first and the last sample value, and it is monotone. *)
Lemma interp_from_lower (x : R) (xp fp : list R) :
  length xp = length fp -> Sorted Rlt xp -> Sorted Rle fp -> hd 0 xp <= x ->
  hd 0 fp <= interp_from x xp fp.
Proof.
  revert fp. induction xp as [|x0 xp IH]; intros fp Hlen Hxs Hys Hx.
  - destruct fp; [simpl; lra | discriminate].
  - destruct fp as [|y0 fp]; [discriminate |].
    destruct xp as [|x1 xp]; [simpl; lra |].
    destruct fp as [|y1 fp]; [discriminate |].
    apply sorted_cons2 in Hxs, Hys.
    destruct Hxs as [Hx01 Hxs]. destruct Hys as [Hy01 Hys].
    apply eq_add_S in Hlen.
    rewrite interp_from_cons2. cbn [hd] in Hx |- *.
    destruct (Rlt_dec x x1) as [Hlt|Hge].
    + apply segment_lower; assumption.
    + assert (Hx1 : x1 <= x) by lra.
      specialize (IH (y1 :: fp) Hlen Hxs Hys Hx1). cbn [hd] in IH. lra.
Qed.

Lemma interp_from_upper (x : R) (xp fp : list R) :
  length xp = length fp -> Sorted Rlt xp -> Sorted Rle fp -> x <= last xp 0 ->
  interp_from x xp fp <= last fp 0.
Proof.
  revert fp. induction xp as [|x0 xp IH]; intros fp Hlen Hxs Hys Hx.
  - destruct fp; [simpl; lra | discriminate].
  - destruct fp as [|y0 fp]; [discriminate |].
    destruct xp as [|x1 xp]; [destruct fp; [simpl; lra | discriminate] |].
    destruct fp as [|y1 fp]; [discriminate |].
    pose proof (sorted_hd_le_last y1 fp) as Hlast.
    apply sorted_cons2 in Hxs, Hys.
    destruct Hxs as [Hx01 Hxs]. destruct Hys as [Hy01 Hys].
    apply eq_add_S in Hlen. specialize (Hlast Hys).
    change (last (x0 :: x1 :: xp) 0) with (last (x1 :: xp) 0) in Hx.
    change (last (y0 :: y1 :: fp) 0) with (last (y1 :: fp) 0).
    rewrite interp_from_cons2.
    destruct (Rlt_dec x x1) as [Hlt|Hge].
    + pose proof (segment_upper x0 x1 y0 y1 Hx01 Hy01 x). lra.
    + apply (IH (y1 :: fp) Hlen Hxs Hys Hx).
Qed.

Lemma interp_from_mono (u v : R) (xp fp : list R) :
  length xp = length fp -> Sorted Rlt xp -> Sorted Rle fp ->
  hd 0 xp <= u -> u <= v ->
  interp_from u xp fp <= interp_from v xp fp.
Proof.
  revert fp. induction xp as [|x0 xp IH]; intros fp Hlen Hxs Hys Hu Huv.
  - simpl. lra.
  - destruct fp as [|y0 fp]; [discriminate |].
    destruct xp as [|x1 xp]; [simpl; lra |].
    destruct fp as [|y1 fp]; [discriminate |].
    pose proof (interp_from_lower v (x1 :: xp) (y1 :: fp)) as Hlow.
    apply sorted_cons2 in Hxs, Hys.
    destruct Hxs as [Hx01 Hxs]. destruct Hys as [Hy01 Hys].
    apply eq_add_S in Hlen. specialize (Hlow Hlen Hxs Hys).
    rewrite !interp_from_cons2. cbn [hd] in Hu, Hlow.
    destruct (Rlt_dec u x1) as [Hu1|Hu1], (Rlt_dec v x1) as [Hv1|Hv1].
    + apply segment_mono; assumption.
    + pose proof (segment_upper x0 x1 y0 y1 Hx01 Hy01 u).
      assert (Hx1 : x1 <= v) by lra. specialize (Hlow Hx1). lra.
    + lra.
    + apply (IH (y1 :: fp) Hlen Hxs Hys); [cbn [hd] |]; lra.
Qed.

(** [np.interp] with increasing sample points and non-decreasing sample
    values is non-decreasing, the flat parts outside the sample points
    included. *)
Lemma np_interp_mono (u v : R) (xp fp : list R) :
  length xp = length fp -> Sorted Rlt xp -> Sorted Rle fp -> u <= v ->
  np_interp u xp fp <= np_interp v xp fp.
Proof.
  intros Hlen Hxs Hys Huv. unfold np_interp.
  assert (Hends : hd 0 fp <= last fp 0).
  { destruct fp as [|y0 fp]; [simpl; lra |].
    apply sorted_hd_le_last. exact Hys. }
  destruct (Rlt_dec (last xp 0) u) as [Hu1|Hu1],
           (Rlt_dec (last xp 0) v) as [Hv1|Hv1]; try lra.
  - destruct (Rlt_dec u (hd 0 xp)) as [Hu0|Hu0]; [exact Hends |].
    apply interp_from_upper; try assumption. lra.
  - destruct (Rlt_dec u (hd 0 xp)) as [Hu0|Hu0],
             (Rlt_dec v (hd 0 xp)) as [Hv0|Hv0]; try lra.
    + apply interp_from_lower; try assumption. lra.
    + apply interp_from_mono; try assumption. lra.
Qed.

(** ** The curve *)

Lemma log_x_val :
  np_log (np_maximum x_points 1) = [0; ln 15000; ln 55000; ln 200000].
Proof.
  unfold np_log, np_maximum, x_points. cbn [map].
  rewrite (Rmax_right 0 1), (Rmax_left 15000 1), (Rmax_left 55000 1),
    (Rmax_left 200000 1), ln_1 by lra.
  reflexivity.
Qed.

Lemma sorted_four (rel : R -> R -> Prop) (a b c d : R) :
  rel a b -> rel b c -> rel c d -> Sorted rel [a; b; c; d].
Proof.
  intros Hab Hbc Hcd.
  apply Sorted_cons; [| apply HdRel_cons; exact Hab].
  apply Sorted_cons; [| apply HdRel_cons; exact Hbc].
  apply Sorted_cons; [| apply HdRel_cons; exact Hcd].
  apply Sorted_cons; [apply Sorted_nil | apply HdRel_nil].
Qed.

Lemma log_x_sorted : Sorted Rlt [0; ln 15000; ln 55000; ln 200000].
Proof.
  apply sorted_four.
  - rewrite <- ln_1. apply ln_increasing; lra.
  - apply ln_increasing; lra.
  - apply ln_increasing; lra.
Qed.

Lemma py_max_one (x : R) : 1 <= py_max x 1.
Proof. unfold py_max. destruct (Rlt_dec x 1); lra. Qed.

Lemma py_max_mono (x y : R) : x <= y -> py_max x 1 <= py_max y 1.
Proof. intros H. unfold py_max. destruct (Rlt_dec x 1), (Rlt_dec y 1); lra. Qed.

Lemma ln_mono (x y : R) : 0 < x -> x <= y -> ln x <= ln y.
Proof.
  intros Hx [Hlt | ->]; [| lra].
  apply Rlt_le, ln_increasing; assumption.
Qed.

(** Below the cap, and everywhere without a cap, the curve is the
    log-interpolation. *)
Lemma tax_curve_below_cap (bracket_rates : BracketRates) (basic_income : R)
    (income_cap_factor : option R) (x : R) :
  (forall f, income_cap_factor = Some f -> x < basic_income * f * 12) ->
  create_tax_function bracket_rates basic_income income_cap_factor x
  = log_interpolation bracket_rates x.
Proof.
  intros Hcap. unfold create_tax_function.
  destruct income_cap_factor as [f|]; cbn [cap_yearly_of]; [| reflexivity].
  specialize (Hcap f eq_refl).
  destruct (Rle_dec (basic_income * f * 12) x); [lra | reflexivity].
Qed.

Lemma log_interpolation_mono (bracket_rates : BracketRates) (x y : R) :
  0 <= rate_90_99 bracket_rates ->
  rate_90_99 bracket_rates <= rate_99_999 bracket_rates ->
  rate_99_999 bracket_rates <= rate_top001 bracket_rates ->
  x <= y ->
  log_interpolation bracket_rates x <= log_interpolation bracket_rates y.
Proof.
  intros H1 H2 H3 Hxy. unfold log_interpolation. cbv zeta.
  rewrite log_x_val. apply np_interp_mono.
  - reflexivity.
  - exact log_x_sorted.
  - unfold y_points. apply sorted_four; assumption.
  - apply ln_mono.
    + pose proof (py_max_one x). lra.
    + apply py_max_mono. exact Hxy.
Qed.

(** From an income of 1 up to the first anchor the curve climbs from 0 to
    the rate of the 90-99% bracket, linearly in the logarithm of the
    income. *)
Lemma log_interpolation_below_first_anchor
    (bracket_rates : BracketRates) (x : R) :
  1 <= x -> x < 15000 ->
  log_interpolation bracket_rates x
  = rate_90_99 bracket_rates * (ln x / ln 15000).
Proof.
  intros H1 H2. unfold log_interpolation. cbv zeta. rewrite log_x_val.
  assert (Hm : py_max x 1 = x).
  { unfold py_max. destruct (Rlt_dec x 1); [lra | reflexivity]. }
  rewrite Hm.
  assert (H0 : 0 <= ln x) by (rewrite <- ln_1; apply ln_mono; lra).
  assert (Hlt : ln x < ln 15000) by (apply ln_increasing; lra).
  assert (Hlt' : ln 15000 < ln 200000) by (apply ln_increasing; lra).
  unfold np_interp, y_points. cbn [last hd].
  destruct (Rlt_dec (ln 200000) (ln x)); [lra |].
  destruct (Rlt_dec (ln x) 0); [lra |].
  rewrite interp_from_cons2.
  destruct (Rlt_dec (ln x) (ln 15000)); [| lra].
  unfold segment, Rdiv. rewrite !Rminus_0_r. ring.
Qed.

(** C8.  For bracket rates that are non-negative and non-decreasing across
    the three segments, the curve is non-decreasing in the annual income on
    the region below the cap, and everywhere when no cap is configured. *)
Theorem tax_curve_monotone_below_cap
    (bracket_rates : BracketRates) (basic_income : R)
    (income_cap_factor : option R) (x y : R) :
  0 <= rate_90_99 bracket_rates ->
  rate_90_99 bracket_rates <= rate_99_999 bracket_rates ->
  rate_99_999 bracket_rates <= rate_top001 bracket_rates ->
  x <= y ->
  (forall f, income_cap_factor = Some f -> y < basic_income * f * 12) ->
  create_tax_function bracket_rates basic_income income_cap_factor x
  <= create_tax_function bracket_rates basic_income income_cap_factor y.
Proof.
  intros H1 H2 H3 Hxy Hcap.
  rewrite !tax_curve_below_cap.
  - apply log_interpolation_mono; assumption.
  - exact Hcap.
  - intros f Hf. specialize (Hcap f Hf). lra.
Qed.

Lemma tax_curve_monotone_below_cap_witness :
  create_tax_function (mkBracketRates 0.02 0.1 0.17) 30 (Some 100) 1000
  <= create_tax_function (mkBracketRates 0.02 0.1 0.17) 30 (Some 100) 20000.
Proof.
  apply (tax_curve_monotone_below_cap (mkBracketRates 0.02 0.1 0.17)
           30 (Some 100) 1000 20000).
  - cbn [rate_90_99]. lra.
  - cbn [rate_90_99 rate_99_999]. lra.
  - cbn [rate_99_999 rate_top001]. lra.
  - lra.
  - intros f [= <-]. lra.
Defined.

Lemma ln_1000_over_ln_15000 : 1 / 2 < ln 1000 / ln 15000.
Proof.
  assert (HL : 0 < ln 15000) by (rewrite <- ln_1; apply ln_increasing; lra).
  assert (H2 : ln 15000 < ln 1000 + ln 1000).
  { rewrite <- ln_mult by lra. apply ln_increasing; lra. }
  pose proof (Rinv_0_lt_compat _ HL) as Hi.
  pose proof (Rinv_r (ln 15000) ltac:(lra)) as Hr.
  unfold Rdiv. nra.
Qed.

(** C2 fails on the code.  With the default inputs (basic income 30,
    overhead 0.10, no cap, progression strength 3.0), the curve built from
    the solved rates is not 0 at an annual income of 1,000: it is the
    90-99% rate times [ln 1000 / ln 15000], a marginal rate above 1.1%. *)
Theorem income_below_first_anchor_is_taxed :
  exists r,
    global_tax_calculator 30 0.10 None 3.0 = Some r /\
    create_tax_function (bracket_rates r) 30 None 1000
      = rate_90_99 (bracket_rates r) * (ln 1000 / ln 15000) /\
    0.011 < create_tax_function (bracket_rates r) 30 None 1000.
Proof.
  destruct (global_tax_calculator_returns 30 0.10 None 3.0) as [r Hr]; [lra |].
  exists r. split; [exact Hr |].
  assert (E : create_tax_function (bracket_rates r) 30 None 1000
              = rate_90_99 (bracket_rates r) * (ln 1000 / ln 15000)).
  { rewrite tax_curve_below_cap by discriminate.
    apply log_interpolation_below_first_anchor; lra. }
  split; [exact E |]. rewrite E.
  apply global_tax_calculator_inv in Hr. cbv zeta in Hr.
  destruct Hr as (_ & _ & _ & _ & _ & H1 & _).
  assert (Hrate : 0.022 < rate_90_99 (bracket_rates r)).
  { rewrite H1, top10_share_val. unfold population, world_gdp. lra. }
  pose proof ln_1000_over_ln_15000. nra.
Qed.

(** ** More on the calculator *)


(** X2.  The cap does not feed back into the solve: with or without a cap the
    calculator raises on the same inputs and otherwise returns the same
    macro figures and the same bracket rates. *)
Theorem solver_ignores_cap (bi oh : R) (cap : option R) (ps : R) :
  match global_tax_calculator bi oh cap ps,
        global_tax_calculator bi oh None ps with
  | Some r, Some r0 =>
      ubi_yearly r = ubi_yearly r0 /\
      total_needed r = total_needed r0 /\
      required_share_gdp r = required_share_gdp r0 /\
      avg_required_on_top10 r = avg_required_on_top10 r0 /\
      bracket_rates r = bracket_rates r0
  | None, None => True
  | _, _ => False
  end.
Proof.
  unfold global_tax_calculator. rewrite weighted_sum_val.
  run_constant_divisions.
  destruct (py_div _ ((0.518 + 0.0011 * ps / 3) / top10_share)) as [sf|];
    cbn [bind]; [| exact I].
  cbn. repeat split; reflexivity.
Qed.

Lemma top001_population_pos : 0 < population * 0.001.
Proof. unfold population. lra. Qed.

Lemma cap_revenue_nonneg (bi : R) (cap : option R) : 0 <= cap_revenue bi cap.
Proof.
  unfold cap_revenue. destruct cap as [f|]; [| lra].
  cbv zeta. pose proof top001_population_pos as HP.
  destruct (Rlt_dec _ _) as [Hlt|_]; [| lra].
  apply Rmult_le_pos; lra.
Qed.

(** X3.  The cap revenue is never negative, and it is positive (the only case in
    which the application prints it) exactly when a cap is configured and
    [cap_yearly] lies below the average income of the top 0.1%. *)
Theorem cap_revenue_reported_iff (bi oh : R) (cap : option R) (ps : R)
    (r : SolverResult) :
  global_tax_calculator bi oh cap ps = Some r ->
  0 <= cap_tax_revenue r /\
  (0 < cap_tax_revenue r <->
   exists f, cap = Some f /\
             bi * f * 12 < world_gdp * share_top001 / (population * 0.001)).
Proof.
  intros Hr. apply global_tax_calculator_inv in Hr. cbv zeta in Hr.
  destruct Hr as (_ & _ & _ & _ & _ & _ & _ & _ & Hc & _). rewrite Hc.
  split; [apply cap_revenue_nonneg |].
  unfold cap_revenue. pose proof top001_population_pos as HP.
  destruct cap as [f|]; cbv zeta.
  - destruct (Rlt_dec _ _) as [Hlt|Hge].
    + split.
      * intros _. exists f. split; [reflexivity | exact Hlt].
      * intros _. apply Rmult_lt_0_compat; lra.
    + split; [lra |]. intros (f' & [= <-] & Hlt). contradiction.
  - split; [lra |]. intros (f' & Hf & _). discriminate.
Qed.

Lemma cap_revenue_reported_iff_witness :
  exists r,
    global_tax_calculator 30 0.10 (Some 100) 3.0 = Some r /\
    0 <= cap_tax_revenue r /\
    (0 < cap_tax_revenue r <->
     exists f, Some 100 = Some f /\
               30 * f * 12 < world_gdp * share_top001 / (population * 0.001)).
Proof.
  destruct (global_tax_calculator_returns 30 0.10 (Some 100) 3.0) as [r Hr];
    [lra |].
  exists r. split; [exact Hr |].
  exact (cap_revenue_reported_iff 30 0.10 (Some 100) 3.0 r Hr).
Defined.

(** X4.  A higher cap factor never brings more cap revenue (for a non-negative
    basic income). *)
Theorem cap_revenue_decreasing_in_factor (bi oh ps f1 f2 : R)
    (r1 r2 : SolverResult) :
  0 <= bi -> f1 <= f2 ->
  global_tax_calculator bi oh (Some f1) ps = Some r1 ->
  global_tax_calculator bi oh (Some f2) ps = Some r2 ->
  cap_tax_revenue r2 <= cap_tax_revenue r1.
Proof.
  intros Hb Hf H1 H2.
  apply global_tax_calculator_inv in H1, H2. cbv zeta in H1, H2.
  destruct H1 as (_ & _ & _ & _ & _ & _ & _ & _ & Hc1 & _).
  destruct H2 as (_ & _ & _ & _ & _ & _ & _ & _ & Hc2 & _).
  rewrite Hc1, Hc2.
  pose proof (cap_revenue_nonneg bi (Some f1)) as Hn1.
  unfold cap_revenue in *. cbv zeta in *.
  pose proof top001_population_pos as HP.
  assert (Hc : bi * f1 * 12 <= bi * f2 * 12) by nra.
  set (A := world_gdp * share_top001 / (population * 0.001)) in *.
  set (P := population * 0.001) in *.
  destruct (Rlt_dec (bi * f2 * 12) A) as [L2|G2]; [| exact Hn1].
  destruct (Rlt_dec (bi * f1 * 12) A) as [L1|G1]; [| lra].
  apply Rmult_le_compat_r; lra.
Qed.

Lemma cap_revenue_decreasing_in_factor_witness :
  exists r1 r2,
    global_tax_calculator 30 0.10 (Some 100) 3.0 = Some r1 /\
    global_tax_calculator 30 0.10 (Some 200) 3.0 = Some r2 /\
    cap_tax_revenue r2 <= cap_tax_revenue r1.
Proof.
  destruct (global_tax_calculator_returns 30 0.10 (Some 100) 3.0) as [r1 H1];
    [lra |].
  destruct (global_tax_calculator_returns 30 0.10 (Some 200) 3.0) as [r2 H2];
    [lra |].
  exists r1, r2. split; [exact H1 |]. split; [exact H2 |].
  apply (cap_revenue_decreasing_in_factor 30 0.10 3.0 100 200 r1 r2);
    [lra | lra | exact H1 | exact H2].
Defined.

(** On non-negative inputs the rates are the scaled multipliers times one
    non-negative scale factor, positive for a positive basic income. *)
Lemma solver_rates_scaled (bi oh : R) (cap : option R) (ps : R)
    (r : SolverResult) :
  0 <= bi -> 0 <= oh -> 0 <= ps ->
  global_tax_calculator bi oh cap ps = Some r ->
  exists sf,
    0 <= sf /\ (0 < bi -> 0 < sf) /\
    rate_90_99 (bracket_rates r) = (1 + (0.35 - 1) * ps / 3) * sf /\
    rate_99_999 (bracket_rates r) = (1 + (1.5 - 1) * ps / 3) * sf /\
    rate_top001 (bracket_rates r) = (1 + (2.7 - 1) * ps / 3) * sf.
Proof.
  intros Hb Ho Hp Hr. apply global_tax_calculator_inv in Hr. cbv zeta in Hr.
  destruct Hr as (_ & _ & _ & _ & _ & H1 & H2 & H3 & _).
  rewrite top10_share_val in *.
  set (avg := bi * 12 * population * (1 + oh) / world_gdp / 0.518) in *.
  set (wavg := (0.518 + 0.0011 * ps / 3) / 0.518) in *.
  assert (Hw : 0 < wavg) by (unfold wavg; lra).
  assert (Hk : 0 < 12 * population / world_gdp / 0.518).
  { unfold population, world_gdp. lra. }
  assert (Ha : avg = bi * (1 + oh) * (12 * population / world_gdp / 0.518)).
  { unfold avg, Rdiv. ring. }
  assert (Ha0 : 0 <= avg).
  { rewrite Ha. apply Rmult_le_pos; [apply Rmult_le_pos |]; lra. }
  exists (avg / wavg). repeat split; try assumption.
  - apply Rmult_le_pos; [exact Ha0 |].
    apply Rlt_le, Rinv_0_lt_compat, Hw.
  - intros Hb'. apply Rdiv_lt_0_compat; [| exact Hw].
    rewrite Ha. apply Rmult_lt_0_compat; [apply Rmult_lt_0_compat |]; lra.
Qed.

(** X5.  On non-negative inputs the calculator returns rates that do not
    decrease from one bracket to the next, the upper two being
    non-negative. *)
Theorem solver_rates_ordered (bi oh : R) (cap : option R) (ps : R) :
  0 <= bi -> 0 <= oh -> 0 <= ps ->
  exists r,
    global_tax_calculator bi oh cap ps = Some r /\
    rate_90_99 (bracket_rates r) <= rate_99_999 (bracket_rates r) /\
    rate_99_999 (bracket_rates r) <= rate_top001 (bracket_rates r) /\
    0 <= rate_99_999 (bracket_rates r).
Proof.
  intros Hb Ho Hp.
  destruct (global_tax_calculator_returns bi oh cap ps) as [r Hr]; [lra |].
  exists r. split; [exact Hr |].
  destruct (solver_rates_scaled bi oh cap ps r Hb Ho Hp Hr)
    as (sf & Hsf & _ & H1 & H2 & H3).
  rewrite H1, H2, H3. repeat split; nra.
Qed.

Lemma solver_rates_ordered_witness :
  exists r,
    global_tax_calculator 30 0.10 None 3.0 = Some r /\
    rate_90_99 (bracket_rates r) <= rate_99_999 (bracket_rates r) /\
    rate_99_999 (bracket_rates r) <= rate_top001 (bracket_rates r) /\
    0 <= rate_99_999 (bracket_rates r).
Proof. apply (solver_rates_ordered 30 0.10 None 3.0); lra. Defined.

(** X6.  The rates are not clamped: for a positive basic income the rate of the
    90-99% bracket is negative exactly when the progression strength
    exceeds 60/13 (about 4.6). *)
Theorem first_rate_negative_iff (bi oh : R) (cap : option R) (ps : R)
    (r : SolverResult) :
  0 < bi -> 0 <= oh -> 0 <= ps ->
  global_tax_calculator bi oh cap ps = Some r ->
  (rate_90_99 (bracket_rates r) < 0 <-> 60 / 13 < ps).
Proof.
  intros Hb Ho Hp Hr.
  destruct (solver_rates_scaled bi oh cap ps r (Rlt_le _ _ Hb) Ho Hp Hr)
    as (sf & _ & Hsf & H1 & _).
  specialize (Hsf Hb). rewrite H1. split; intros H.
  - destruct (Rlt_le_dec (60 / 13) ps) as [L|G]; [exact L |].
    assert (0 <= 1 + (0.35 - 1) * ps / 3) by lra. nra.
  - assert (1 + (0.35 - 1) * ps / 3 < 0) by lra. nra.
Qed.

Lemma first_rate_negative_iff_witness :
  exists r,
    global_tax_calculator 30 0.10 None 10 = Some r /\
    (rate_90_99 (bracket_rates r) < 0 <-> 60 / 13 < 10).
Proof.
  destruct (global_tax_calculator_returns 30 0.10 None 10) as [r Hr]; [lra |].
  exists r. split; [exact Hr |].
  apply (first_rate_negative_iff 30 0.10 None 10 r); [lra | lra | lra | exact Hr].
Defined.

(** X7.  The solver and the curve together: for non-negative inputs with a
    progression strength of at most 60/13, the curve built from the
    solved rates is non-decreasing below the cap. *)
Theorem solved_curve_monotone_below_cap (bi oh : R) (cap : option R)
    (ps x y : R) (r : SolverResult) :
  0 <= bi -> 0 <= oh -> 0 <= ps -> ps <= 60 / 13 ->
  global_tax_calculator bi oh cap ps = Some r ->
  x <= y ->
  (forall f, cap = Some f -> y < bi * f * 12) ->
  create_tax_function (bracket_rates r) bi cap x
  <= create_tax_function (bracket_rates r) bi cap y.
Proof.
  intros Hb Ho Hp Hp' Hr Hxy Hcap.
  destruct (solver_rates_scaled bi oh cap ps r Hb Ho Hp Hr)
    as (sf & Hsf & _ & H1 & H2 & H3).
  rewrite !tax_curve_below_cap.
  - apply log_interpolation_mono; [| | | exact Hxy]; rewrite ?H1, ?H2, ?H3.
    + apply Rmult_le_pos; lra.
    + nra.
    + nra.
  - exact Hcap.
  - intros f Hf. specialize (Hcap f Hf). lra.
Qed.

Lemma solved_curve_monotone_below_cap_witness :
  exists r,
    global_tax_calculator 30 0.10 (Some 100) 3.0 = Some r /\
    create_tax_function (bracket_rates r) 30 (Some 100) 1000
    <= create_tax_function (bracket_rates r) 30 (Some 100) 20000.
Proof.
  destruct (global_tax_calculator_returns 30 0.10 (Some 100) 3.0) as [r Hr];
    [lra |].
  exists r. split; [exact Hr |].
  apply (solved_curve_monotone_below_cap 30 0.10 (Some 100) 3.0 1000 20000 r);
    [lra | lra | lra | lra | exact Hr | lra |].
  intros f [= <-]. lra.
Defined.

(** ** More on the curve *)

Lemma log_anchor_order :
  0 < ln 15000 /\ ln 15000 < ln 55000 /\ ln 55000 < ln 200000.
Proof.
  repeat split.
  - rewrite <- ln_1. apply ln_increasing; lra.
  - apply ln_increasing; lra.
  - apply ln_increasing; lra.
Qed.

Ltac decide_comparisons :=
  repeat match goal with
         | |- context [Rlt_dec ?a ?b] => destruct (Rlt_dec a b); try lra
         end.

(** [np.interp] over the four log anchors, by position of the query. *)
Lemma interp_log_anchors (y0 y1 y2 y3 t : R) :
  let xp := [0; ln 15000; ln 55000; ln 200000] in
  let fp := [y0; y1; y2; y3] in
  (t <= 0 -> np_interp t xp fp = y0) /\
  (t = ln 15000 -> np_interp t xp fp = y1) /\
  (t = ln 55000 -> np_interp t xp fp = y2) /\
  (ln 200000 <= t -> np_interp t xp fp = y3).
Proof.
  intros xp fp. subst xp fp.
  destruct log_anchor_order as (H1 & H2 & H3).
  unfold np_interp. cbn [last hd]. rewrite !interp_from_cons2.
  cbn [interp_from]. unfold segment.
  repeat split; intros Ht; decide_comparisons.
  - replace t with 0 by lra. unfold Rdiv. ring.
  - subst t. unfold Rdiv. ring.
  - subst t. unfold Rdiv. ring.
Qed.

Lemma py_max_small (x : R) : x <= 1 -> py_max x 1 = 1.
Proof.
  intros H. unfold py_max. destruct (Rlt_dec x 1); [reflexivity | lra].
Qed.

Lemma py_max_large (x : R) : 1 <= x -> py_max x 1 = x.
Proof.
  intros H. unfold py_max. destruct (Rlt_dec x 1); [lra | reflexivity].
Qed.

Lemma log_interpolation_values (bracket_rates : BracketRates) :
  (forall x, x <= 1 -> log_interpolation bracket_rates x = 0) /\
  log_interpolation bracket_rates 15000 = rate_90_99 bracket_rates /\
  log_interpolation bracket_rates 55000 = rate_99_999 bracket_rates /\
  log_interpolation bracket_rates 200000 = rate_top001 bracket_rates /\
  (forall x, 200000 <= x ->
             log_interpolation bracket_rates x = rate_top001 bracket_rates).
Proof.
  unfold log_interpolation. cbv zeta. rewrite log_x_val. unfold y_points.
  repeat split.
  - intros x Hx. rewrite py_max_small, ln_1 by exact Hx.
    apply interp_log_anchors. lra.
  - rewrite py_max_large by lra. apply interp_log_anchors. reflexivity.
  - rewrite py_max_large by lra. apply interp_log_anchors. reflexivity.
  - rewrite py_max_large by lra. apply interp_log_anchors. lra.
  - intros x Hx. rewrite py_max_large by lra.
    apply interp_log_anchors. apply ln_mono; lra.
Qed.

(** X8.  Below the cap (everywhere without one) the curve passes through the
    three solved rates at the anchors 15,000, 55,000 and 200,000. *)
Theorem tax_curve_at_anchors (bracket_rates : BracketRates)
    (basic_income : R) (income_cap_factor : option R) :
  (forall f, income_cap_factor = Some f -> 200000 < basic_income * f * 12) ->
  let tax_curve :=
    create_tax_function bracket_rates basic_income income_cap_factor in
  tax_curve 15000 = rate_90_99 bracket_rates /\
  tax_curve 55000 = rate_99_999 bracket_rates /\
  tax_curve 200000 = rate_top001 bracket_rates.
Proof.
  intros Hcap tax_curve. subst tax_curve.
  destruct (log_interpolation_values bracket_rates) as (_ & H1 & H2 & H3 & _).
  rewrite !tax_curve_below_cap
    by (intros f Hf; specialize (Hcap f Hf); lra).
  repeat split; assumption.
Qed.

Lemma tax_curve_at_anchors_witness :
  let tax_curve :=
    create_tax_function (mkBracketRates 0.02 0.1 0.17) 30 (Some 1000) in
  tax_curve 15000 = 0.02 /\ tax_curve 55000 = 0.1 /\ tax_curve 200000 = 0.17.
Proof.
  apply (tax_curve_at_anchors (mkBracketRates 0.02 0.1 0.17) 30 (Some 1000)).
  intros f [= <-]. lra.
Defined.

(** X9.  Flat extrapolation to the right: from 200,000 on and below the cap,
    the curve stays at the rate of the top bracket. *)
Theorem tax_curve_flat_above_last_anchor (bracket_rates : BracketRates)
    (basic_income : R) (income_cap_factor : option R) (x : R) :
  200000 <= x ->
  (forall f, income_cap_factor = Some f -> x < basic_income * f * 12) ->
  create_tax_function bracket_rates basic_income income_cap_factor x
  = rate_top001 bracket_rates.
Proof.
  intros Hx Hcap. rewrite tax_curve_below_cap by exact Hcap.
  apply log_interpolation_values. exact Hx.
Qed.

Lemma tax_curve_flat_above_last_anchor_witness :
  create_tax_function (mkBracketRates 0.02 0.1 0.17) 30 None 5000000 = 0.17.
Proof.
  apply (tax_curve_flat_above_last_anchor (mkBracketRates 0.02 0.1 0.17)
           30 None 5000000).
  - lra.
  - intros f Hf. discriminate Hf.
Defined.

(** X10.  Flat on the left: up to an annual income of 1 (zero and negative
    incomes included) and below the cap, the curve is 0. *)
Theorem tax_curve_zero_up_to_one (bracket_rates : BracketRates)
    (basic_income : R) (income_cap_factor : option R) (x : R) :
  x <= 1 ->
  (forall f, income_cap_factor = Some f -> x < basic_income * f * 12) ->
  create_tax_function bracket_rates basic_income income_cap_factor x = 0.
Proof.
  intros Hx Hcap. rewrite tax_curve_below_cap by exact Hcap.
  apply log_interpolation_values. exact Hx.
Qed.

Lemma tax_curve_zero_up_to_one_witness :
  create_tax_function (mkBracketRates 0.02 0.1 0.17) 30 (Some 100) 0 = 0.
Proof.
  apply (tax_curve_zero_up_to_one (mkBracketRates 0.02 0.1 0.17)
           30 (Some 100) 0).
  - lra.
  - intros f [= <-]. lra.
Defined.

Lemma log_interpolation_bounds (bracket_rates : BracketRates) (x : R) :
  0 <= rate_90_99 bracket_rates ->
  rate_90_99 bracket_rates <= rate_99_999 bracket_rates ->
  rate_99_999 bracket_rates <= rate_top001 bracket_rates ->
  0 <= log_interpolation bracket_rates x <= rate_top001 bracket_rates.
Proof.
  intros H1 H2 H3.
  destruct (log_interpolation_values bracket_rates) as (Hz & _ & _ & Hl & Hf).
  split.
  - destruct (Rle_dec x 1) as [Hx|Hx]; [rewrite Hz by exact Hx; lra |].
    rewrite <- (Hz 1) by lra. apply log_interpolation_mono; try assumption. lra.
  - destruct (Rle_dec 200000 x) as [Hx|Hx]; [rewrite Hf by exact Hx; lra |].
    rewrite <- Hl. apply log_interpolation_mono; try assumption. lra.
Qed.

Lemma tax_curve_unit (bracket_rates : BracketRates)
    (basic_income : R) (income_cap_factor : option R) (x : R) :
  0 <= rate_90_99 bracket_rates ->
  rate_90_99 bracket_rates <= rate_99_999 bracket_rates ->
  rate_99_999 bracket_rates <= rate_top001 bracket_rates ->
  rate_top001 bracket_rates <= 1 ->
  0 <= create_tax_function bracket_rates basic_income income_cap_factor x <= 1.
Proof.
  intros H1 H2 H3 H4.
  pose proof (log_interpolation_bounds bracket_rates x H1 H2 H3) as Hb.
  unfold create_tax_function.
  destruct (cap_yearly_of basic_income income_cap_factor) as [c|]; [| lra].
  destruct (Rle_dec c x); lra.
Qed.

(** X11.  With rates between 0 and 1 that do not decrease across the brackets,
    the curve is a rate between 0 and 1 at every income, cap or no cap. *)
Theorem tax_curve_within_unit_interval (bracket_rates : BracketRates)
    (basic_income : R) (income_cap_factor : option R) (x : R) :
  0 <= rate_90_99 bracket_rates ->
  rate_90_99 bracket_rates <= rate_99_999 bracket_rates ->
  rate_99_999 bracket_rates <= rate_top001 bracket_rates ->
  rate_top001 bracket_rates <= 1 ->
  0 <= create_tax_function bracket_rates basic_income income_cap_factor x <= 1.
Proof. apply tax_curve_unit. Qed.

Lemma tax_curve_within_unit_interval_witness :
  0 <= create_tax_function (mkBracketRates 0.02 0.1 0.17) 30 (Some 100) 20000
  <= 1.
Proof.
  apply (tax_curve_within_unit_interval (mkBracketRates 0.02 0.1 0.17)
           30 (Some 100) 20000); cbn; lra.
Defined.

Lemma tax_curve_mono_unit (bracket_rates : BracketRates)
    (basic_income : R) (income_cap_factor : option R) (x y : R) :
  0 <= rate_90_99 bracket_rates ->
  rate_90_99 bracket_rates <= rate_99_999 bracket_rates ->
  rate_99_999 bracket_rates <= rate_top001 bracket_rates ->
  rate_top001 bracket_rates <= 1 ->
  x <= y ->
  create_tax_function bracket_rates basic_income income_cap_factor x
  <= create_tax_function bracket_rates basic_income income_cap_factor y.
Proof.
  intros H1 H2 H3 H4 Hxy.
  pose proof (log_interpolation_bounds bracket_rates x H1 H2 H3) as Hb.
  pose proof (log_interpolation_mono bracket_rates x y H1 H2 H3 Hxy) as Hm.
  unfold create_tax_function.
  destruct (cap_yearly_of basic_income income_cap_factor) as [c|]; [| exact Hm].
  destruct (Rle_dec c x), (Rle_dec c y); lra.
Qed.

(** X12.  With rates between 0 and 1 that do not decrease across the brackets,
    the curve is non-decreasing over all incomes, the jump to 100% at the
    cap included. *)
Theorem tax_curve_monotone_across_cap (bracket_rates : BracketRates)
    (basic_income : R) (income_cap_factor : option R) (x y : R) :
  0 <= rate_90_99 bracket_rates ->
  rate_90_99 bracket_rates <= rate_99_999 bracket_rates ->
  rate_99_999 bracket_rates <= rate_top001 bracket_rates ->
  rate_top001 bracket_rates <= 1 ->
  x <= y ->
  create_tax_function bracket_rates basic_income income_cap_factor x
  <= create_tax_function bracket_rates basic_income income_cap_factor y.
Proof. apply tax_curve_mono_unit. Qed.

Lemma tax_curve_monotone_across_cap_witness :
  create_tax_function (mkBracketRates 0.02 0.1 0.17) 30 (Some 100) 20000
  <= create_tax_function (mkBracketRates 0.02 0.1 0.17) 30 (Some 100) 40000.
Proof.
  apply (tax_curve_monotone_across_cap (mkBracketRates 0.02 0.1 0.17)
           30 (Some 100) 20000 40000); cbn; lra.
Defined.

(** ** Bounds on the quadrature *)

Lemma sum_map_le (g h : nat -> R) (l : list nat) :
  (forall k, In k l -> g k <= h k) ->
  fold_right Rplus 0 (map g l) <= fold_right Rplus 0 (map h l).
Proof.
  induction l as [|k l IH]; intros H; cbn [map fold_right]; [lra |].
  pose proof (H k (or_introl eq_refl)) as Hk.
  assert (IH' : fold_right Rplus 0 (map g l) <= fold_right Rplus 0 (map h l)).
  { apply IH. intros j Hj. apply H. right. exact Hj. }
  lra.
Qed.

Lemma sum_map_const (c : R) (l : list nat) :
  fold_right Rplus 0 (map (fun _ => c) l) = INR (length l) * c.
Proof.
  induction l as [|k l IH]; [simpl; ring |].
  cbn [map fold_right]. rewrite IH.
  change (length (k :: l)) with (S (length l)). rewrite S_INR. ring.
Qed.

(** The sample points of the sum lie in [[0, T]]. *)
Lemma sample_in_range (T : R) (n k : nat) :
  0 <= T -> (k < n)%nat ->
  0 <= 0 + INR (S k) * ((T - 0) / INR n) <= T.
Proof.
  intros HT Hk.
  assert (Hn : 0 < INR n) by (apply lt_0_INR; lia).
  assert (Hk' : INR (S k) <= INR n) by (apply le_INR; lia).
  assert (Hk0 : 0 <= INR (S k)) by apply pos_INR.
  pose proof (Rinv_0_lt_compat _ Hn) as Hi.
  assert (Hq : 0 <= INR (S k) * / INR n <= 1).
  { split; [apply Rmult_le_pos; lra |].
    apply (Rmult_le_reg_r (INR n)); [exact Hn |].
    rewrite Rmult_assoc, Rinv_l by lra. lra. }
  replace (0 + INR (S k) * ((T - 0) / INR n))
    with (T * (INR (S k) * / INR n)) by (unfold Rdiv; ring).
  split; [apply Rmult_le_pos; lra | nra].
Qed.

(** A curve between [lo] and [hi] on [[0, T]] has its Riemann sum between
    [lo * T] and [hi * T]. *)
Lemma right_riemann_sum_bounds (f : R -> R) (lo hi T : R) (n : nat) :
  (0 < n)%nat -> 0 <= T ->
  (forall x, 0 <= x <= T -> lo <= f x <= hi) ->
  lo * T <= right_riemann_sum f 0 T n <= hi * T.
Proof.
  intros Hn HT Hf. unfold right_riemann_sum. cbv zeta.
  assert (Hn' : 0 < INR n) by (apply lt_0_INR; exact Hn).
  set (w := (T - 0) / INR n).
  assert (Hw : 0 <= w).
  { unfold w. apply Rmult_le_pos; [lra |].
    apply Rlt_le, Rinv_0_lt_compat, Hn'. }
  assert (HwT : INR n * w = T).
  { unfold w, Rdiv. rewrite Rminus_0_r, (Rmult_comm T), <- Rmult_assoc,
      Rinv_r by lra. ring. }
  assert (Hterm : forall k, In k (seq 0 n) ->
            w * lo <= w * f (0 + INR (S k) * w) <= w * hi).
  { intros k Hk. apply in_seq in Hk.
    pose proof (sample_in_range T n k HT ltac:(lia)) as Hx.
    fold w in Hx. specialize (Hf _ Hx).
    split; apply Rmult_le_compat_l; lra. }
  split.
  - replace (lo * T) with (INR (length (seq 0 n)) * (w * lo))
      by (rewrite length_seq, <- HwT; ring).
    rewrite <- sum_map_const. apply sum_map_le.
    intros k Hk. apply Hterm. exact Hk.
  - replace (hi * T) with (INR (length (seq 0 n)) * (w * hi))
      by (rewrite length_seq, <- HwT; ring).
    rewrite <- sum_map_const. apply sum_map_le.
    intros k Hk. apply Hterm. exact Hk.
Qed.

(** For a non-negative, non-decreasing curve the Riemann sum grows with the
    length of the interval. *)
Lemma right_riemann_sum_mono (f : R -> R) (T1 T2 : R) (n : nat) :
  (0 < n)%nat -> 0 <= T1 -> T1 <= T2 ->
  (forall x, 0 <= f x) ->
  (forall x y, x <= y -> f x <= f y) ->
  right_riemann_sum f 0 T1 n <= right_riemann_sum f 0 T2 n.
Proof.
  intros Hn H1 H12 Hpos Hmono. unfold right_riemann_sum. cbv zeta.
  assert (Hn' : 0 < INR n) by (apply lt_0_INR; exact Hn).
  pose proof (Rinv_0_lt_compat _ Hn') as Hi.
  apply sum_map_le. intros k _.
  assert (Hk0 : 0 <= INR (S k)) by apply pos_INR.
  assert (Hw1 : 0 <= (T1 - 0) / INR n) by (apply Rmult_le_pos; lra).
  assert (Hw : (T1 - 0) / INR n <= (T2 - 0) / INR n)
    by (apply Rmult_le_compat_r; lra).
  assert (Hx : 0 + INR (S k) * ((T1 - 0) / INR n)
               <= 0 + INR (S k) * ((T2 - 0) / INR n)) by nra.
  pose proof (Hmono _ _ Hx) as Hf.
  pose proof (Hpos (0 + INR (S k) * ((T1 - 0) / INR n))) as Hf0.
  nra.
Qed.

Lemma subintervals_pos : (0 < 9999)%nat.
Proof. apply Nat.lt_0_succ. Qed.

Lemma fine_grained_integration_bounds (f : R -> R) (lo hi T : R) :
  0 <= T ->
  (forall x, 0 <= x <= T -> lo <= f x <= hi) ->
  lo * T <= fine_grained_integration f T <= hi * T.
Proof.
  intros HT Hf. rewrite fine_grained_integration_riemann.
  apply right_riemann_sum_bounds; [exact subintervals_pos | exact HT | exact Hf].
Qed.

Lemma fine_grained_integration_mono (f : R -> R) (T1 T2 : R) :
  0 <= T1 -> T1 <= T2 ->
  (forall x, 0 <= f x) ->
  (forall x y, x <= y -> f x <= f y) ->
  fine_grained_integration f T1 <= fine_grained_integration f T2.
Proof.
  intros H1 H12 Hpos Hmono. rewrite !fine_grained_integration_riemann.
  apply right_riemann_sum_mono; try assumption. exact subintervals_pos.
Qed.

(** The taxable income lies between 0 and the yearly income. *)
Lemma taxable_income_range (yearly bi : R) (cap : option R) :
  0 <= yearly -> 0 <= bi -> (forall f, cap = Some f -> 0 <= f) ->
  0 <= taxable_income_of yearly bi cap <= yearly.
Proof.
  intros Hy Hb Hf. unfold taxable_income_of.
  destruct cap as [f|]; cbn [cap_yearly_of]; [| lra].
  specialize (Hf f eq_refl).
  assert (0 <= bi * f * 12) by (apply Rmult_le_pos; [apply Rmult_le_pos |]; lra).
  unfold py_min. destruct (Rlt_dec _ _); lra.
Qed.

(** The fields of the outcome in terms of the quadrature [q] and the
    surcharge [s]. *)
Lemma outcome_fields (m bi : R) (curve : R -> R) (cap : option R) :
  let yearly := m * 12 in
  let q := fine_grained_integration curve (taxable_income_of yearly bi cap) in
  let s := cap_surcharge yearly bi cap in
  let o := calculate_personal_outcome m bi curve cap in
  tax_amount o = (q + s) / 12 /\
  after_tax_income_monthly o =
    match cap_yearly_of bi cap with
    | Some c => py_min (yearly - (q + s) + bi * 12) (c + bi * 12)
    | None => yearly - (q + s) + bi * 12
    end / 12 /\
  tax_rate o = if Rlt_dec 0 yearly then (q + s) / yearly * 100 else 0.
Proof. cbv zeta. repeat split; reflexivity. Qed.

(** Quadrature plus surcharge, for a quadrature of at most the taxable
    income, is at most the yearly income. *)
Lemma yearly_tax_range (yearly bi q : R) (cap : option R) :
  0 <= yearly -> 0 <= bi -> (forall f, cap = Some f -> 0 <= f) ->
  0 <= q <= taxable_income_of yearly bi cap ->
  0 <= q + cap_surcharge yearly bi cap <= yearly.
Proof.
  intros Hy Hb Hf. unfold taxable_income_of, cap_surcharge.
  destruct cap as [f|]; cbn [cap_yearly_of]; [| lra].
  unfold py_min. destruct (Rlt_dec (bi * f * 12) yearly); lra.
Qed.

Lemma ratio_within_unit (t y : R) : 0 < y -> 0 <= t <= y -> 0 <= t / y <= 1.
Proof.
  intros Hy Ht. pose proof (Rinv_0_lt_compat _ Hy) as Hi. split.
  - apply Rmult_le_pos; lra.
  - apply (Rmult_le_reg_r y); [exact Hy |].
    rewrite div_mul_cancel by lra. lra.
Qed.

Lemma outcome_bounds (bracket_rates : BracketRates)
    (monthly_income basic_income : R) (income_cap_factor : option R) :
  0 <= rate_90_99 bracket_rates ->
  rate_90_99 bracket_rates <= rate_99_999 bracket_rates ->
  rate_99_999 bracket_rates <= rate_top001 bracket_rates ->
  rate_top001 bracket_rates <= 1 ->
  0 <= monthly_income -> 0 <= basic_income ->
  (forall f, income_cap_factor = Some f -> 0 <= f) ->
  let tax_curve :=
    create_tax_function bracket_rates basic_income income_cap_factor in
  let o := calculate_personal_outcome monthly_income basic_income tax_curve
             income_cap_factor in
  0 <= tax_amount o <= monthly_income /\
  basic_income <= after_tax_income_monthly o <= monthly_income + basic_income /\
  0 <= tax_rate o <= 100.
Proof.
  intros H1 H2 H3 H4 Hm Hb Hf tax_curve o. subst o.
  destruct (outcome_fields monthly_income basic_income tax_curve
              income_cap_factor) as (Et & Ea & Er).
  cbv zeta in Et, Ea, Er. rewrite Et, Ea, Er. clear Et Ea Er.
  assert (Hy : 0 <= monthly_income * 12) by lra.
  pose proof (taxable_income_range _ _ _ Hy Hb Hf) as HT.
  pose proof (fine_grained_integration_bounds tax_curve 0 1 _ (proj1 HT)
                (fun x _ => tax_curve_unit bracket_rates basic_income
                              income_cap_factor x H1 H2 H3 H4)) as HQ.
  assert (HQ' : 0 <= fine_grained_integration tax_curve
                       (taxable_income_of (monthly_income * 12) basic_income
                          income_cap_factor)
                <= taxable_income_of (monthly_income * 12) basic_income
                     income_cap_factor) by lra.
  pose proof (yearly_tax_range _ _ _ _ Hy Hb Hf HQ') as Htax.
  clear HQ HQ' HT. revert Htax.
  generalize (fine_grained_integration tax_curve
                (taxable_income_of (monthly_income * 12) basic_income
                   income_cap_factor)
              + cap_surcharge (monthly_income * 12) basic_income
                  income_cap_factor).
  intros t Ht. split; [lra |]. split.
  - destruct income_cap_factor as [f|]; cbn [cap_yearly_of]; [| lra].
    specialize (Hf f eq_refl).
    assert (Hc : 0 <= basic_income * f * 12)
      by (apply Rmult_le_pos; [apply Rmult_le_pos |]; lra).
    unfold py_min. destruct (Rlt_dec _ _); lra.
  - destruct (Rlt_dec 0 (monthly_income * 12)) as [Hpos|_]; [| lra].
    pose proof (ratio_within_unit t _ Hpos Ht). lra.
Qed.

(** X13.  With a curve whose rates are between 0 and 1 and do not decrease across
    the brackets, a non-negative income and basic income and a non-negative
    cap factor: the tax is between 0 and the income, the income after tax is
    between the basic income and income plus basic income, and the tax rate
    is between 0 and 100. *)
Theorem outcome_within_bounds (bracket_rates : BracketRates)
    (monthly_income basic_income : R) (income_cap_factor : option R) :
  0 <= rate_90_99 bracket_rates ->
  rate_90_99 bracket_rates <= rate_99_999 bracket_rates ->
  rate_99_999 bracket_rates <= rate_top001 bracket_rates ->
  rate_top001 bracket_rates <= 1 ->
  0 <= monthly_income -> 0 <= basic_income ->
  (forall f, income_cap_factor = Some f -> 0 <= f) ->
  let tax_curve :=
    create_tax_function bracket_rates basic_income income_cap_factor in
  let o := calculate_personal_outcome monthly_income basic_income tax_curve
             income_cap_factor in
  0 <= tax_amount o <= monthly_income /\
  basic_income <= after_tax_income_monthly o <= monthly_income + basic_income /\
  0 <= tax_rate o <= 100.
Proof. apply outcome_bounds. Qed.

Lemma outcome_within_bounds_witness :
  let tax_curve :=
    create_tax_function (mkBracketRates 0.02 0.1 0.17) 30 (Some 100) in
  let o := calculate_personal_outcome 5000 30 tax_curve (Some 100) in
  0 <= tax_amount o <= 5000 /\
  30 <= after_tax_income_monthly o <= 5000 + 30 /\
  0 <= tax_rate o <= 100.
Proof.
  apply (outcome_within_bounds (mkBracketRates 0.02 0.1 0.17) 5000 30
           (Some 100)).
  - cbn [rate_90_99]. lra.
  - cbn [rate_90_99 rate_99_999]. lra.
  - cbn [rate_99_999 rate_top001]. lra.
  - cbn [rate_top001]. lra.
  - lra.
  - lra.
  - intros f [= <-]. lra.
Defined.

(** ** Tax and income *)

Lemma tax_curve_nonneg_mono (bracket_rates : BracketRates) (bi : R)
    (cap : option R) :
  0 <= rate_90_99 bracket_rates ->
  rate_90_99 bracket_rates <= rate_99_999 bracket_rates ->
  rate_99_999 bracket_rates <= rate_top001 bracket_rates ->
  (forall f, cap = Some f -> rate_top001 bracket_rates <= 1) ->
  (forall x, 0 <= create_tax_function bracket_rates bi cap x) /\
  (forall x y, x <= y ->
     create_tax_function bracket_rates bi cap x
     <= create_tax_function bracket_rates bi cap y).
Proof.
  intros H1 H2 H3 H4. destruct cap as [f|].
  - specialize (H4 f eq_refl). split.
    + intros x. apply tax_curve_unit; assumption.
    + intros x y Hxy. apply tax_curve_mono_unit; assumption.
  - split.
    + intros x. apply (log_interpolation_bounds bracket_rates x H1 H2 H3).
    + intros x y Hxy.
      apply (log_interpolation_mono bracket_rates x y H1 H2 H3 Hxy).
Qed.

Lemma taxable_income_mono (y1 y2 bi : R) (cap : option R) :
  y1 <= y2 -> taxable_income_of y1 bi cap <= taxable_income_of y2 bi cap.
Proof.
  intros H. unfold taxable_income_of.
  destruct (cap_yearly_of bi cap) as [c|]; [| exact H].
  unfold py_min. destruct (Rlt_dec c y1), (Rlt_dec c y2); lra.
Qed.

Lemma cap_surcharge_mono (y1 y2 bi : R) (cap : option R) :
  y1 <= y2 -> cap_surcharge y1 bi cap <= cap_surcharge y2 bi cap.
Proof.
  intros H. unfold cap_surcharge.
  destruct (cap_yearly_of bi cap) as [c|]; [| lra].
  destruct (Rlt_dec c y1), (Rlt_dec c y2); lra.
Qed.

(** X14.  A higher income never pays less tax: with non-negative rates that do
    not decrease across the brackets (and, when a cap is configured, a top
    rate of at most 1 and a non-negative cap factor), the tax amount is
    non-decreasing in the monthly income. *)
Theorem tax_nondecreasing_in_income (bracket_rates : BracketRates)
    (m1 m2 basic_income : R) (income_cap_factor : option R) :
  0 <= rate_90_99 bracket_rates ->
  rate_90_99 bracket_rates <= rate_99_999 bracket_rates ->
  rate_99_999 bracket_rates <= rate_top001 bracket_rates ->
  (forall f, income_cap_factor = Some f ->
             rate_top001 bracket_rates <= 1 /\ 0 <= f) ->
  0 <= basic_income -> 0 <= m1 -> m1 <= m2 ->
  let tax_curve :=
    create_tax_function bracket_rates basic_income income_cap_factor in
  tax_amount (calculate_personal_outcome m1 basic_income tax_curve
                income_cap_factor)
  <= tax_amount (calculate_personal_outcome m2 basic_income tax_curve
                   income_cap_factor).
Proof.
  intros H1 H2 H3 H4 Hb Hm1 Hm12 tax_curve.
  destruct (outcome_fields m1 basic_income tax_curve income_cap_factor)
    as (E1 & _).
  destruct (outcome_fields m2 basic_income tax_curve income_cap_factor)
    as (E2 & _).
  cbv zeta in E1, E2. rewrite E1, E2. clear E1 E2.
  assert (Hy : m1 * 12 <= m2 * 12) by lra.
  destruct (tax_curve_nonneg_mono bracket_rates basic_income income_cap_factor
              H1 H2 H3 (fun f Hf => proj1 (H4 f Hf))) as (Hpos & Hmono).
  pose proof (taxable_income_range (m1 * 12) basic_income income_cap_factor
                ltac:(lra) Hb (fun f Hf => proj2 (H4 f Hf))) as HT1.
  pose proof (taxable_income_mono _ _ basic_income income_cap_factor Hy) as HT.
  pose proof (fine_grained_integration_mono tax_curve _ _ (proj1 HT1) HT
                Hpos Hmono) as HQ.
  pose proof (cap_surcharge_mono _ _ basic_income income_cap_factor Hy) as HS.
  revert HQ.
  generalize (fine_grained_integration tax_curve
                (taxable_income_of (m1 * 12) basic_income income_cap_factor)).
  generalize (fine_grained_integration tax_curve
                (taxable_income_of (m2 * 12) basic_income income_cap_factor)).
  intros q2 q1 HQ. lra.
Qed.

Lemma tax_nondecreasing_in_income_witness :
  let tax_curve :=
    create_tax_function (mkBracketRates 0.02 0.1 0.17) 30 (Some 100) in
  tax_amount (calculate_personal_outcome 2000 30 tax_curve (Some 100))
  <= tax_amount (calculate_personal_outcome 5000 30 tax_curve (Some 100)).
Proof.
  apply (tax_nondecreasing_in_income (mkBracketRates 0.02 0.1 0.17)
           2000 5000 30 (Some 100)).
  - cbn [rate_90_99]. lra.
  - cbn [rate_90_99 rate_99_999]. lra.
  - cbn [rate_99_999 rate_top001]. lra.
  - intros f [= <-]. cbn [rate_top001]. lra.
  - lra.
  - lra.
  - lra.
Defined.

Lemma taxable_income_above_cap (yearly bi f : R) :
  bi * f * 12 < yearly -> taxable_income_of yearly bi (Some f) = bi * f * 12.
Proof.
  intros H. unfold taxable_income_of, py_min. cbn [cap_yearly_of].
  destruct (Rlt_dec (bi * f * 12) yearly); [reflexivity | contradiction].
Qed.

Lemma cap_surcharge_above_cap (yearly bi f : R) :
  bi * f * 12 < yearly ->
  cap_surcharge yearly bi (Some f) = yearly - bi * f * 12.
Proof.
  intros H. unfold cap_surcharge. cbn [cap_yearly_of].
  destruct (Rlt_dec (bi * f * 12) yearly); [reflexivity | contradiction].
Qed.

(** X15.  Above the cap every additional unit of income is taxed away: two
    incomes above the cap leave the same income after tax, and their taxes
    differ by exactly the difference of the incomes.  This holds for any
    curve. *)
Theorem above_cap_same_net (m1 m2 basic_income income_cap_factor : R)
    (tax_curve : R -> R) :
  basic_income * income_cap_factor * 12 < m1 * 12 ->
  basic_income * income_cap_factor * 12 < m2 * 12 ->
  let o1 := calculate_personal_outcome m1 basic_income tax_curve
              (Some income_cap_factor) in
  let o2 := calculate_personal_outcome m2 basic_income tax_curve
              (Some income_cap_factor) in
  after_tax_income_monthly o1 = after_tax_income_monthly o2 /\
  tax_amount o2 - tax_amount o1 = m2 - m1.
Proof.
  intros Hc1 Hc2 o1 o2. subst o1 o2.
  destruct (outcome_fields m1 basic_income tax_curve (Some income_cap_factor))
    as (Et1 & Ea1 & _).
  destruct (outcome_fields m2 basic_income tax_curve (Some income_cap_factor))
    as (Et2 & Ea2 & _).
  cbv zeta in Et1, Ea1, Et2, Ea2. rewrite Et1, Ea1, Et2, Ea2.
  clear Et1 Ea1 Et2 Ea2.
  rewrite !taxable_income_above_cap, !cap_surcharge_above_cap by assumption.
  cbn [cap_yearly_of].
  set (c := basic_income * income_cap_factor * 12) in *.
  generalize (fine_grained_integration tax_curve c). intros q.
  split; [| lra].
  replace (m1 * 12 - (q + (m1 * 12 - c)) + basic_income * 12)
    with (c - q + basic_income * 12) by ring.
  replace (m2 * 12 - (q + (m2 * 12 - c)) + basic_income * 12)
    with (c - q + basic_income * 12) by ring.
  reflexivity.
Qed.

Lemma above_cap_same_net_witness :
  let tax_curve :=
    create_tax_function (mkBracketRates 0.02 0.1 0.17) 30 (Some 100) in
  let o1 := calculate_personal_outcome 4000 30 tax_curve (Some 100) in
  let o2 := calculate_personal_outcome 90000 30 tax_curve (Some 100) in
  after_tax_income_monthly o1 = after_tax_income_monthly o2 /\
  tax_amount o2 - tax_amount o1 = 90000 - 4000.
Proof.
  intros tax_curve.
  apply (above_cap_same_net 4000 90000 30 100 tax_curve); lra.
Defined.

(** X16.  Without a cap the effective rate never exceeds the top marginal rate:
    for non-negative rates that do not decrease across the brackets, the
    monthly tax is at most the top rate times the monthly income (and is
    not negative). *)
Theorem tax_at_most_top_rate (bracket_rates : BracketRates)
    (monthly_income basic_income : R) :
  0 <= rate_90_99 bracket_rates ->
  rate_90_99 bracket_rates <= rate_99_999 bracket_rates ->
  rate_99_999 bracket_rates <= rate_top001 bracket_rates ->
  0 <= monthly_income ->
  let tax_curve := create_tax_function bracket_rates basic_income None in
  let o := calculate_personal_outcome monthly_income basic_income tax_curve
             None in
  0 <= tax_amount o <= rate_top001 bracket_rates * monthly_income.
Proof.
  intros H1 H2 H3 Hm tax_curve o. subst o.
  destruct (outcome_fields monthly_income basic_income tax_curve None)
    as (Et & _).
  cbv zeta in Et. rewrite Et. clear Et.
  unfold taxable_income_of, cap_surcharge. cbn [cap_yearly_of].
  assert (Hy : 0 <= monthly_income * 12) by lra.
  pose proof (fine_grained_integration_bounds tax_curve 0
                (rate_top001 bracket_rates) _ Hy
                (fun x _ => log_interpolation_bounds bracket_rates x H1 H2 H3))
    as HQ.
  revert HQ.
  generalize (fine_grained_integration tax_curve (monthly_income * 12)).
  intros q HQ. lra.
Qed.

Lemma tax_at_most_top_rate_witness :
  let tax_curve := create_tax_function (mkBracketRates 0.02 0.1 0.17) 30 None in
  let o := calculate_personal_outcome 5000 30 tax_curve None in
  0 <= tax_amount o <= 0.17 * 5000.
Proof.
  apply (tax_at_most_top_rate (mkBracketRates 0.02 0.1 0.17) 5000 30).
  - cbn [rate_90_99]. lra.
  - cbn [rate_90_99 rate_99_999]. lra.
  - cbn [rate_99_999 rate_top001]. lra.
  - lra.
Defined.

(** ** Properties of the application script *)

(** X17.  The three calls of the script in sequence, without a cap: on
    non-negative inputs with a progression strength of at most 60/13 the
    script computes an outcome; its tax is between 0 and the solved top
    rate times the income, and the income after tax is income minus tax
    plus basic income. *)
Theorem personal_uncapped (bi oh ps monthly_income : R) :
  0 <= bi -> 0 <= oh -> 0 <= ps -> ps <= 60 / 13 -> 0 <= monthly_income ->
  exists r o,
    global_tax_calculator bi oh None ps = Some r /\
    personal bi oh None ps monthly_income = Some o /\
    0 <= tax_amount o <= rate_top001 (bracket_rates r) * monthly_income /\
    after_tax_income_monthly o = monthly_income - tax_amount o + bi.
Proof.
  intros Hb Ho Hp Hp' Hm.
  destruct (global_tax_calculator_returns bi oh None ps) as [r Hr]; [lra |].
  exists r. eexists. split; [exact Hr |].
  unfold personal. rewrite Hr. cbn [bind]. split; [reflexivity |].
  destruct (solver_rates_scaled bi oh None ps r Hb Ho Hp Hr)
    as (sf & Hsf & _ & H1 & H2 & H3).
  assert (R1 : 0 <= rate_90_99 (bracket_rates r))
    by (rewrite H1; apply Rmult_le_pos; lra).
  assert (R2 : rate_90_99 (bracket_rates r) <= rate_99_999 (bracket_rates r))
    by (rewrite H1, H2; nra).
  assert (R3 : rate_99_999 (bracket_rates r) <= rate_top001 (bracket_rates r))
    by (rewrite H2, H3; nra).
  set (tax_curve := create_tax_function (bracket_rates r) bi None).
  destruct (outcome_fields monthly_income bi tax_curve None) as (Et & Ea & _).
  cbv zeta in Et, Ea. rewrite Et, Ea. clear Et Ea.
  unfold taxable_income_of, cap_surcharge. cbn [cap_yearly_of].
  assert (Hy : 0 <= monthly_income * 12) by lra.
  pose proof (fine_grained_integration_bounds tax_curve 0
                (rate_top001 (bracket_rates r)) _ Hy
                (fun x _ => log_interpolation_bounds (bracket_rates r) x
                              R1 R2 R3)) as HQ.
  revert HQ.
  generalize (fine_grained_integration tax_curve (monthly_income * 12)).
  intros q HQ. lra.
Qed.

Lemma personal_uncapped_witness :
  exists r o,
    global_tax_calculator 30 0.10 None 3.0 = Some r /\
    personal 30 0.10 None 3.0 3000 = Some o /\
    0 <= tax_amount o <= rate_top001 (bracket_rates r) * 3000 /\
    after_tax_income_monthly o = 3000 - tax_amount o + 30.
Proof. apply (personal_uncapped 30 0.10 3.0 3000); lra. Defined.

Lemma percentiles_uniform :
  percentiles = map (fun i => INR i * ((100 - 0) / INR 499) + 0) (seq 0 500).
Proof.
  unfold percentiles. change 500%nat with (S 499).
  apply np_linspace_uniform. apply Nat.lt_0_succ.
Qed.

Lemma sorted_map_seq (h : nat -> R) (s n : nat) :
  (forall i, h i <= h (S i)) -> Sorted Rle (map h (seq s n)).
Proof.
  intros Hh. revert s. induction n as [|n IH]; intros s.
  - apply Sorted_nil.
  - cbn [seq map]. apply Sorted_cons; [apply IH |].
    destruct n as [|n]; [apply HdRel_nil |].
    cbn [seq map]. apply HdRel_cons. apply Hh.
Qed.

Lemma np_interp_bounds (x : R) (xp fp : list R) :
  length xp = length fp -> Sorted Rlt xp -> Sorted Rle fp ->
  hd 0 fp <= np_interp x xp fp <= last fp 0.
Proof.
  intros Hlen Hxs Hys. unfold np_interp.
  assert (Hends : hd 0 fp <= last fp 0).
  { destruct fp as [|y0 fp]; [simpl; lra |].
    apply sorted_hd_le_last. exact Hys. }
  destruct (Rlt_dec (last xp 0) x) as [H1|H1]; [lra |].
  destruct (Rlt_dec x (hd 0 xp)) as [H0|H0]; [lra |].
  split.
  - apply interp_from_lower; try assumption. lra.
  - apply interp_from_upper; try assumption. lra.
Qed.

Ltac sorted_by_lra :=
  repeat (apply Sorted_cons;
          [| first [apply HdRel_nil | apply HdRel_cons; lra]]);
  apply Sorted_nil.

Lemma anchors_sorted :
  Sorted Rlt (map fst anchors) /\ Sorted Rle (map snd anchors).
Proof. unfold anchors. cbn [map fst snd]. split; sorted_by_lra. Qed.

Lemma incomes_annual_facts :
  length incomes_annual = 500%nat /\
  Sorted Rle incomes_annual /\
  Forall (fun x => 0 <= x <= 1000000) incomes_annual.
Proof.
  destruct anchors_sorted as [Hxs Hys].
  unfold incomes_annual. rewrite percentiles_uniform, map_map.
  split; [| split].
  - rewrite length_map, length_seq. reflexivity.
  - apply sorted_map_seq. intros i.
    apply np_interp_mono; [reflexivity | exact Hxs | exact Hys |].
    assert (0 <= (100 - 0) / INR 499).
    { apply Rmult_le_pos; [lra |].
      apply Rlt_le, Rinv_0_lt_compat, lt_0_INR, Nat.lt_0_succ. }
    set (step := (100 - 0) / INR 499) in *. clearbody step.
    rewrite (S_INR i). generalize (INR i). intros t. nra.
  - apply Forall_forall. intros x Hx. apply in_map_iff in Hx.
    destruct Hx as (i & <- & _).
    apply (np_interp_bounds _ (map fst anchors) (map snd anchors));
      [reflexivity | exact Hxs | exact Hys].
Qed.

(** X18.  The charted gross incomes: 500 values, non-decreasing along the
    percentiles, all between 0 and 1,000,000 a year. *)
Theorem incomes_annual_sorted_bounded :
  length incomes_annual = 500%nat /\
  Sorted Rle incomes_annual /\
  Forall (fun x => 0 <= x <= 1000000) incomes_annual.
Proof. exact incomes_annual_facts. Qed.

Lemma after_tax_le_cap (m bi f : R) (curve : R -> R) :
  after_tax_income_monthly (calculate_personal_outcome m bi curve (Some f))
  <= bi * f * 12 / 12 + bi.
Proof.
  unfold calculate_personal_outcome.
  cbn [after_tax_income_monthly cap_yearly_of].
  match goal with
  | |- py_min ?a ?b / 12 <= _ => pose proof (py_min_le_r a b) as H
  end.
  lra.
Qed.

(** X19.  With a cap configured, no point of the charted after-tax column lies
    above [cap_yearly / 12 + basic_income], whatever the curve; the column
    has one value per charted income. *)
Theorem chart_after_tax_capped (basic_income income_cap_factor : R)
    (tax_curve : R -> R) :
  length (after_tax basic_income tax_curve (Some income_cap_factor))
    = length incomes_annual /\
  Forall (fun a => a <= basic_income * income_cap_factor * 12 / 12 + basic_income)
         (after_tax basic_income tax_curve (Some income_cap_factor)).
Proof.
  unfold after_tax. split; [apply length_map |].
  apply Forall_forall. intros a Ha. apply in_map_iff in Ha.
  destruct Ha as (x & <- & _). apply after_tax_le_cap.
Qed.

(** X20.  With the curve of [create_tax_function] for rates between 0 and 1 that
    do not decrease across the brackets, a non-negative basic income and a
    non-negative cap factor, every point of the charted after-tax column is
    at least the basic income: nobody on the chart ends up below it. *)
Theorem chart_after_tax_floor (bracket_rates : BracketRates)
    (basic_income : R) (income_cap_factor : option R) :
  0 <= rate_90_99 bracket_rates ->
  rate_90_99 bracket_rates <= rate_99_999 bracket_rates ->
  rate_99_999 bracket_rates <= rate_top001 bracket_rates ->
  rate_top001 bracket_rates <= 1 ->
  0 <= basic_income ->
  (forall f, income_cap_factor = Some f -> 0 <= f) ->
  Forall (fun a => basic_income <= a)
         (after_tax basic_income
            (create_tax_function bracket_rates basic_income income_cap_factor)
            income_cap_factor).
Proof.
  intros H1 H2 H3 H4 Hb Hf.
  destruct incomes_annual_facts as (_ & _ & Hrange).
  unfold after_tax. apply Forall_forall. intros a Ha.
  apply in_map_iff in Ha. destruct Ha as (x & <- & Hx).
  rewrite Forall_forall in Hrange. specialize (Hrange x Hx).
  assert (Hm : 0 <= x / 12) by lra.
  pose proof (outcome_bounds bracket_rates (x / 12) basic_income
                income_cap_factor H1 H2 H3 H4 Hm Hb Hf) as Hout.
  cbv zeta in Hout. destruct Hout as (_ & Hafter & _). lra.
Qed.

Lemma chart_after_tax_floor_witness :
  Forall (fun a => 30 <= a)
         (after_tax 30 (create_tax_function (mkBracketRates 0.02 0.1 0.17)
                          30 (Some 100))
            (Some 100)).
Proof.
  apply (chart_after_tax_floor (mkBracketRates 0.02 0.1 0.17) 30 (Some 100)).
  - cbn [rate_90_99]. lra.
  - cbn [rate_90_99 rate_99_999]. lra.
  - cbn [rate_99_999 rate_top001]. lra.
  - cbn [rate_top001]. lra.
  - lra.
  - intros f [= <-]. lra.
Defined.

(** ** Degenerate settings *)

(** X21.  A cap factor of zero is falsy in Python: the calculator then returns no
    [cap_monthly], although it has computed the cap revenue for a yearly cap
    of zero, the whole income of the top 0.1%, which is positive. *)
Theorem zero_factor_cap (bi oh ps : R) (r : SolverResult) :
  global_tax_calculator bi oh (Some 0) ps = Some r ->
  cap_monthly r = None /\
  cap_tax_revenue r = world_gdp * share_top001 /\
  0 < cap_tax_revenue r.
Proof.
  intros Hr. apply global_tax_calculator_inv in Hr. cbv zeta in Hr.
  destruct Hr as (_ & _ & _ & _ & _ & _ & _ & _ & Hc & Hm).
  rewrite Hc, Hm. unfold cap_monthly_of, cap_revenue. cbv zeta.
  destruct (Req_dec_T 0 0) as [_|N]; [| contradiction].
  pose proof top001_population_pos as HP.
  assert (Hpool : world_gdp * share_top001 / (population * 0.001)
                  * (population * 0.001) = world_gdp * share_top001)
    by (apply div_mul_cancel; lra).
  assert (Hpos : 0 < world_gdp * share_top001)
    by (unfold world_gdp, share_top001; lra).
  assert (Havg : 0 < world_gdp * share_top001 / (population * 0.001))
    by (apply Rdiv_lt_0_compat; assumption).
  replace (bi * 0 * 12) with 0 by ring.
  destruct (Rlt_dec 0 _) as [_|N]; [| contradiction].
  rewrite Rminus_0_r, Hpool. repeat split. exact Hpos.
Qed.

Lemma zero_factor_cap_witness :
  exists r,
    global_tax_calculator 30 0.10 (Some 0) 3.0 = Some r /\
    cap_monthly r = None /\
    cap_tax_revenue r = world_gdp * share_top001 /\
    0 < cap_tax_revenue r.
Proof.
  destruct (global_tax_calculator_returns 30 0.10 (Some 0) 3.0) as [r Hr];
    [lra |].
  exists r. split; [exact Hr |].
  exact (zero_factor_cap 30 0.10 3.0 r Hr).
Defined.

(** X22.  A basic income of zero with a cap configured puts the cap at zero:
    every positive income is then taxed away entirely, whatever the cap
    factor and the curve. *)
Theorem zero_basic_income_with_cap (monthly_income income_cap_factor : R)
    (tax_curve : R -> R) :
  0 < monthly_income ->
  let o := calculate_personal_outcome monthly_income 0 tax_curve
             (Some income_cap_factor) in
  tax_amount o = monthly_income /\
  after_tax_income_monthly o = 0 /\
  tax_rate o = 100.
Proof.
  intros Hm o. subst o.
  destruct (outcome_fields monthly_income 0 tax_curve (Some income_cap_factor))
    as (Et & Ea & Er).
  cbv zeta in Et, Ea, Er. rewrite Et, Ea, Er. clear Et Ea Er.
  assert (Hc : 0 * income_cap_factor * 12 < monthly_income * 12) by lra.
  rewrite taxable_income_above_cap, cap_surcharge_above_cap by exact Hc.
  cbn [cap_yearly_of].
  replace (0 * income_cap_factor * 12) with 0 by ring.
  rewrite fine_grained_integration_zero.
  destruct (Rlt_dec 0 (monthly_income * 12)) as [_|N]; [| lra].
  split; [lra |]. split.
  - rewrite py_min_same by lra. lra.
  - field. lra.
Qed.

Lemma zero_basic_income_with_cap_witness :
  let tax_curve := create_tax_function (mkBracketRates 0 0 0) 0 (Some 100) in
  let o := calculate_personal_outcome 3000 0 tax_curve (Some 100) in
  tax_amount o = 3000 /\ after_tax_income_monthly o = 0 /\ tax_rate o = 100.
Proof.
  intros tax_curve.
  apply (zero_basic_income_with_cap 3000 100 tax_curve). lra.
Defined.
